(** * Bandit agents, environments, experiment runner, batched dataset and
      training loop: a shallow embedding of [bandits.py] and [rnn_utils.py].

    Conventions of the embedding.
    - Python [int] is [Z]; array shapes and positions are [nat].
    - Python/NumPy [float] is idealised as an exact rational [Q]: rounding
      is not modelled.  Two places say what the idealisation hides: the
      softmax of the agents, whose exponentials overflow ([FloatExp]), and
      [AgentQ64], the Q-learning agent on binary64 floats.
    - A Python exception is a value of [Py.exn]; code that can raise returns
      a [Py.res]; code that also mutates an object or draws random numbers
      lives in the monad [Py.M S], whose state survives a raised exception,
      as the attributes of a Python object do.
    - The global NumPy generator [np.random] is an explicit [RandomState]. *)

From stdpp Require Import base list strings gmap.
From Stdlib Require Import ZArith QArith Qabs Qround Qpower Lia Lqa.
From Stdlib Require Import PrimFloat.

Close Scope Q_scope.
Local Open Scope Z_scope.

(* ===================================================================== *)
(** ** Python prelude: exceptions, the state-and-exception monad, indexing *)
(* ===================================================================== *)

Module Py.

Inductive exn : Type :=
| ValueError
| IndexError
| AssertionError
| ZeroDivisionError
| KeyError (key : string)
| AttributeError (attr : string)
| NameError (name : string).

Inductive res (A : Type) : Type :=
| Ok (a : A)
| Raise (e : exn).
Arguments Ok {A} a.
Arguments Raise {A} e.

Definition is_Ok {A} (r : res A) : Prop :=
  match r with Ok _ => True | Raise _ => False end.

(** A computation over a mutable state [S].  The state reached when an
    exception is raised is returned with it. *)
Definition M (S A : Type) : Type := S -> res A * S.

#[export] Instance res_ret : MRet res := fun A a => Ok a.
#[export] Instance res_bind : MBind res :=
  fun A B f m => match m with Ok a => f a | Raise e => Raise e end.

#[export] Instance M_ret S : MRet (M S) := fun A a s => (Ok a, s).
#[export] Instance M_bind S : MBind (M S) :=
  fun A B f m s =>
    match m s with
    | (Ok a, s') => f a s'
    | (Raise e, s') => (Raise e, s')
    end.

Definition raise {S A} (e : exn) : M S A := fun s => (Raise e, s).
Definition get {S} : M S S := fun s => (Ok s, s).
Definition put {S} (s : S) : M S unit := fun _ => (Ok tt, s).
Definition gets {S A} (f : S -> A) : M S A := fun s => (Ok (f s), s).
Definition modify {S} (f : S -> S) : M S unit := fun s => (Ok tt, f s).
Definition lift {S A} (r : res A) : M S A := fun s => (r, s).

(** Run a computation on a component of the state (a lens given by its
    getter and setter). *)
Definition zoom {S T A} (proj : S -> T) (upd : T -> S -> S) (m : M T A) : M S A :=
  fun s => let '(r, t') := m (proj s) in (r, upd t' s).

(** [a % b] and [a // b] on Python ints: floor division, the remainder has
    the sign of the divisor, and a zero divisor raises. *)
Definition mod_ (a b : Z) : res Z :=
  if b =? 0 then Raise ZeroDivisionError else Ok (a mod b).
Definition floordiv (a b : Z) : res Z :=
  if b =? 0 then Raise ZeroDivisionError else Ok (a / b).

(** Index normalisation of a sequence of length [len]: a negative index
    counts from the end, anything outside [-len, len) raises IndexError. *)
Definition index (len : nat) (i : Z) : res nat :=
  if (0 <=? i) && (i <? Z.of_nat len) then Ok (Z.to_nat i)
  else if (- Z.of_nat len <=? i) && (i <? 0) then Ok (Z.to_nat (i + Z.of_nat len))
  else Raise IndexError.

(** Bound normalisation of the slice [start:stop] (step 1) on a sequence
    of length [len]: negative bounds count from the end, then both are
    clipped to [0, len]. *)
Definition slice_bound (len : nat) (i : Z) : nat :=
  let i := if i <? 0 then i + Z.of_nat len else i in
  if i <? 0 then 0%nat
  else if Z.of_nat len <=? i then len
  else Z.to_nat i.

Definition slice_bounds (len : nat) (start stop : Z) : nat * nat :=
  let lo := slice_bound len start in
  let hi := slice_bound len stop in
  (lo, (hi - lo)%nat).

(** A computation that raises from every state. *)
Definition never_returns {S A} (m : M S A) : Prop :=
  forall s, exists e s', m s = (Raise e, s').

End Py.
Export Py.

(* ===================================================================== *)
(** ** NumPy arrays of rank 3, indexed [timestep, episode, feature]       *)
(* ===================================================================== *)

Module Np.
Section Ndarray.
Context {A : Type}.

Record ndarray : Type := mk_ndarray {
  shape : nat * nat * nat;
  data : list (list (list A))
}.

Definition shape0 (a : ndarray) : nat := (shape a).1.1.
Definition shape1 (a : ndarray) : nat := (shape a).1.2.
Definition shape2 (a : ndarray) : nat := (shape a).2.

(** [a[t, e, f]] for in-range positions. *)
Definition item (a : ndarray) (t e f : nat) : option A :=
  row ← data a !! t; ep ← row !! e; ep !! f.

(** [a[:, start:stop]]: every timestep and feature, the episodes of the
    slice. *)
Definition slice_axis1 (a : ndarray) (start stop : Z) : ndarray :=
  let '(lo, n) := slice_bounds (shape1 a) start stop in
  {| shape := (shape0 a, n, shape2 a);
     data := map (fun row => take n (drop lo row)) (data a) |}.

(** An array given by its shape and its entries. *)
Definition tabulate (T E F : nat) (g : nat -> nat -> nat -> A) : ndarray :=
  {| shape := (T, E, F);
     data := map (fun t => map (fun e => map (g t e) (seq 0 F)) (seq 0 E))
                 (seq 0 T) |}.
End Ndarray.
Arguments ndarray A : clear implicits.
End Np.

(* ===================================================================== *)
(** ** [rnn_utils.DatasetRNN]                                             *)
(* ===================================================================== *)

Module DatasetRNN.
Import Np.
Section Dataset.
Context {A : Type}.

Record t : Type := mk {
  _xs : ndarray A;
  _ys : ndarray A;
  _batch_size : Z;
  _dataset_size : Z;
  _idx : Z;
  n_batches : Z
}.

Definition set_idx (i : Z) (self : t) : t :=
  {| _xs := _xs self; _ys := _ys self; _batch_size := _batch_size self;
     _dataset_size := _dataset_size self; _idx := i;
     n_batches := n_batches self |}.

(** [if batch_size is None: batch_size = xs.shape[1]]. *)
Definition batch_size_of (xs : ndarray A) (batch_size : option Z) : Z :=
  match batch_size with
  | None => Z.of_nat (shape1 xs)
  | Some b => b
  end.

(** Do error checking and bin up the dataset into batches. *)
Definition __init__ (xs ys : ndarray A) (batch_size : option Z) : res t :=
  let batch_size := batch_size_of xs batch_size in
  (* Do xs and ys have the same number of timesteps? *)
  if negb (shape0 xs =? shape0 ys)%nat then Raise ValueError else
  (* Do xs and ys have the same number of episodes? *)
  if negb (shape1 xs =? shape1 ys)%nat then Raise ValueError else
  (* Is the number of episodes divisible by the batch size? *)
  r ← mod_ (Z.of_nat (shape1 xs)) batch_size;
  if negb (r =? 0) then Raise ValueError else
  let dataset_size := Z.of_nat (shape1 xs) in
  nb ← floordiv dataset_size batch_size;
  mret {| _xs := xs; _ys := ys; _batch_size := batch_size;
          _dataset_size := dataset_size; _idx := 0; n_batches := nb |}.

(** Return a batch of data, including both xs and ys. *)
Definition __next__ : M t (ndarray A * ndarray A) :=
  self ← get;
  let start := _idx self in
  let end_ := start + _batch_size self in
  (* Check that we're not trying to overshoot the size of the dataset *)
  _ ← (if end_ <=? _dataset_size self then mret tt else raise AssertionError);
  (* Update the index for next time *)
  _ ← (if end_ =? _dataset_size self then modify (set_idx 0)
       else modify (set_idx end_));
  self ← get;
  mret (slice_axis1 (_xs self) start end_, slice_axis1 (_ys self) start end_).

(** [n] successive calls of [next(dataset)], with the batches they return. *)
Fixpoint next_n (n : nat) : M t (list (ndarray A * ndarray A)) :=
  match n with
  | O => mret []
  | S n' => b ← __next__; bs ← next_n n'; mret (b :: bs)
  end.

(** The episodes [lo, lo + n) of [a], all timesteps and features: entry
    [(t, j, f)] is [a]'s entry [(t, lo + j, f)]. *)
Definition is_episodes (a : ndarray A) (lo n : nat) (b : ndarray A) : Prop :=
  shape b = (shape0 a, n, shape2 a) /\
  forall t j f,
    item b t j f = if (j <? n)%nat then item a t (lo + j) f else None.
End Dataset.
Arguments t A : clear implicits.
End DatasetRNN.

(* ===================================================================== *)
(** ** Rational arithmetic helpers and arrays of two floats               *)
(* ===================================================================== *)

Module Vec2.
Local Open Scope Q_scope.

(** [x < y] on floats, as a boolean. *)
Definition Qltb (x y : Q) : bool := negb (Qle_bool y x).

(** A NumPy array (or Python list) of two floats. *)
Definition vec2 : Type := Q * Q.

Definition ones : vec2 := (1, 1).
Definition scale (c : Q) (v : vec2) : vec2 := (c * v.1, c * v.2).
Definition add (v w : vec2) : vec2 := (v.1 + w.1, v.2 + w.2).
Definition np_maximum (v w : vec2) : vec2 :=
  (if Qltb v.1 w.1 then w.1 else v.1, if Qltb v.2 w.2 then w.2 else v.2).
Definition np_minimum (v w : vec2) : vec2 :=
  (if Qltb w.1 v.1 then w.1 else v.1, if Qltb w.2 v.2 then w.2 else v.2).

(** [v[i]] and [v[i] = x], with Python's index normalisation. *)
Definition getitem (v : vec2) (i : Z) : res Q :=
  k ← index 2 i; mret (match k with O => v.1 | _ => v.2 end).
Definition setitem (v : vec2) (i : Z) (x : Q) : res vec2 :=
  k ← index 2 i; mret (match k with O => (x, v.2) | _ => (v.1, x) end).

Definition in_unit (x : Q) : Prop := 0 <= x <= 1.
Definition in_open_unit (x : Q) : Prop := 0 < x < 1.
End Vec2.

(* ===================================================================== *)
(** ** The global generator [np.random]                                   *)
(* ===================================================================== *)

Module NpRandom.
Import Vec2.
Local Open Scope Q_scope.

(** The generator is a source of raw draws read in order: the [n]-th draw
    yields 53 random bits when a uniform sample is asked for and a standard
    normal deviate when a Gaussian one is. *)
Record RandomState : Type := mk {
  pos : nat;
  bits : nat -> Z;
  gauss : nat -> Q
}.

Definition advance (g : RandomState) : RandomState :=
  {| pos := S (pos g); bits := bits g; gauss := gauss g |}.

Definition two53 : positive := 9007199254740992.

(** [np.random.rand()] / [random_sample()]: a double in [0, 1), 53 random
    bits over [2^53]. *)
Definition random_sample : M RandomState Q :=
  fun g => (Ok (Qmake (bits g (pos g) mod Z.pos two53) two53), advance g).

Definition standard_normal : M RandomState Q :=
  fun g => (Ok (gauss g (pos g)), advance g).

(** [np.random.rand(2)]. *)
Definition rand_2 : M RandomState vec2 :=
  a ← random_sample; b ← random_sample; mret (a, b).

(** [np.random.normal(loc, scale, size=2)]: a negative scale is refused. *)
Definition normal_2 (loc scale : Q) : M RandomState vec2 :=
  if Qltb scale 0 then raise ValueError else
  a ← standard_normal; b ← standard_normal;
  mret (loc + scale * a, loc + scale * b).

(** [np.random.binomial(1, p)]: one Bernoulli draw; [p] outside [0, 1] is
    refused.  The draw is inverted on the smaller of [p] and [1 - p]: for
    [p <= 0.5] the sample is 1 when the uniform draw is above [1 - p], and
    for [p > 0.5] it is 1 minus the sample for [1 - p]. *)
Definition binomial_1 (p : Q) : M RandomState Z :=
  if Qltb p 0 || Qltb 1 p then raise ValueError else
  u ← random_sample;
  mret (if Qle_bool p (1 # 2)
        then (if Qltb (1 - p) u then 1%Z else 0%Z)
        else (1 - (if Qltb p u then 1 else 0))%Z).

(** [sqrt(finfo(float64).eps)], the tolerance of [choice] on [sum(p)]. *)
Definition atol : Q := 1 # 67108864.

Fixpoint cumsum_from (acc : Q) (p : list Q) : list Q :=
  match p with
  | [] => []
  | x :: p' => (acc + x) :: cumsum_from (acc + x) p'
  end.
Definition cumsum (p : list Q) : list Q := cumsum_from 0 p.

(** [cdf.searchsorted(u, side='right')] on a sorted [cdf]: the number of
    entries that are [<= u]. *)
Definition searchsorted_right (cdf : list Q) (u : Q) : nat :=
  length (List.filter (fun c => Qle_bool c u) cdf).

(** [np.random.choice(a, p=p)]: [p] must have [a] entries, none negative,
    summing to 1 within [atol]; the sample is the position of a uniform draw
    in the normalised cumulative sums. *)
Definition choice (a : Z) (p : list Q) : M RandomState Z :=
  if (a <=? 0)%Z then raise ValueError else
  if negb (Z.of_nat (length p) =? a)%Z then raise ValueError else
  if existsb (fun x => Qltb x 0) p then raise ValueError else
  if Qltb atol (Qabs (fold_right Qplus 0 p - 1)) then raise ValueError else
  let cdf := cumsum p in
  let cdf := map (fun c => c / List.last cdf 0) cdf in
  u ← random_sample;
  mret (Z.of_nat (searchsorted_right cdf u)).

(** [np.exp], which the rationals do not have: taken as a parameter with
    the one property the agents rely on. *)
Class NpExp : Type := {
  np_exp : Q -> Q;
  np_exp_pos : forall x, 0 < np_exp x
}.

(** The floating-point types the agents compute their softmax in. *)
Inductive dtype : Type :=
| float32
| float64.

(** Arguments of [np.exp] between [- exp_safe] and [exp_safe] give a finite
    positive float, small enough for two of them to add up to a finite one;
    an argument above [exp_over] gives [inf]. *)
Definition exp_safe (d : dtype) : Q :=
  match d with float32 => 80 | float64 => 700 end.
Definition exp_over (d : dtype) : Q :=
  match d with float32 => 89 | float64 => 710 end.

(** Whether the floats [np.exp(l) / np.sum(np.exp(l))] are finite numbers,
    equal to the exact quotients up to rounding.  When they are not (an
    exponential is [inf], or the sum is [inf] or 0) the result has NaN
    entries or is all zeros, and [np.random.choice] refuses it. *)
Class FloatExp : Type := {
  softmax_finite : dtype -> list Q -> bool
}.

(** What is known of [softmax_finite]: it holds of one or two arguments in
    the safe range, and fails as soon as one exponential overflows. *)
Class FloatExpOk `{FloatExp} : Prop := {
  softmax_finite_safe : forall d l,
    l <> [] -> (length l <= 2)%nat ->
    Forall (fun x => - exp_safe d <= x <= exp_safe d) l ->
    softmax_finite d l = true;
  softmax_finite_over : forall d l,
    Exists (fun x => exp_over d < x) l -> softmax_finite d l = false
}.

(** Run a generator computation next to an object's own state. *)
Definition with_rng {S A} (m : M RandomState A) : M (S * RandomState) A :=
  zoom snd (fun g s => (s.1, g)) m.
Definition with_self {S A} (m : M S A) : M (S * RandomState) A :=
  zoom fst (fun x s => (x, s.2)) m.

(** An object built by running the body of its constructor on a fresh
    [self]. *)
Definition construct {S} (self0 : S) (body : M (S * RandomState) unit)
  : M RandomState S :=
  fun g => let '(r, (self, g')) := body (self0, g) in
           (match r with Ok _ => Ok self | Raise e => Raise e end, g').
End NpRandom.

(* ===================================================================== *)
(** ** Agents ([bandits.py])                                              *)
(* ===================================================================== *)

(** What [run_experiment] asks of an agent: [get_choice()] reads the agent
    and draws from the generator, [update(choice, reward)] mutates it. *)
Class Agent (St : Type) : Type := {
  agent_get_choice : St -> M NpRandom.RandomState Z;
  agent_update : Z -> Z -> M St unit
}.

(** An exponential of every entry over their sum. *)
Definition softmax `{NpRandom.NpExp} (l : list Q) : list Q :=
  let e := map NpRandom.np_exp l in
  let s := fold_right Qplus 0%Q e in
  map (fun x => (x / s)%Q) e.

Module AgentQ.
Import Vec2 NpRandom.
Local Open Scope Q_scope.

Record t : Type := mk {
  _alpha : Q;  (* Learning rate *)
  _beta : Q;   (* softmax temp *)
  q : vec2
}.

Definition set_q (v : vec2) (self : t) : t :=
  {| _alpha := _alpha self; _beta := _beta self; q := v |}.

(** Reset the agent for the beginning of a new session. *)
Definition new_sess : M t unit :=
  modify (set_q (scale (1 # 2) ones)).

(** [q] is bound by [new_sess], which the constructor calls last; the
    value given to it before that call is never read. *)
Definition __init__ (alpha beta : Q) : t :=
  (new_sess {| _alpha := alpha; _beta := beta; q := (0, 0) |}).2.

(** The choice probabilities; [None] stands for a float result that is not
    made of finite numbers (it has NaN entries, or is all zeros). *)
Definition get_choice_probs `{NpExp} `{FloatExp} (self : t) : option vec2 :=
  let x := (_beta self * (q self).1, _beta self * (q self).2) in
  if softmax_finite float64 [x.1; x.2] then
    let e := (np_exp x.1, np_exp x.2) in
    let total := e.1 + e.2 in
    Some (e.1 / total, e.2 / total)
  else None.

(** Sample a choice, given the agent's current internal state. *)
Definition get_choice `{NpExp} `{FloatExp} (self : t) : M RandomState Z :=
  match get_choice_probs self with
  | Some choice_probs => choice 2 [choice_probs.1; choice_probs.2]
  | None => raise ValueError
  end.

(** Update the agent after one step of the task. *)
Definition update (choice reward : Z) : M t unit :=
  self ← get;
  old ← lift (getitem (q self) choice);
  q' ← lift (setitem (q self) choice
               ((1 - _alpha self) * old + _alpha self * inject_Z reward));
  put (set_q q' self).

(** [n] successive updates, one per (choice, reward) pair. *)
Fixpoint updates (trials : list (Z * Z)) : M t unit :=
  match trials with
  | [] => mret tt
  | (c, r) :: rest => _ ← update c r; updates rest
  end.

(** The value an update writes at the chosen arm:
    [(1 - alpha) * q[choice] + alpha * reward]. *)
Definition q_target (alpha old : Q) (reward : Z) : Q :=
  (1 - alpha) * old + alpha * inject_Z reward.

(** A (choice, reward) pair the task can produce: both are 0 or 1. *)
Definition valid_trial (cr : Z * Z) : Prop :=
  (cr.1 = 0 \/ cr.1 = 1)%Z /\ (cr.2 = 0 \/ cr.2 = 1)%Z.

(** An agent whose learning rate is in [0, 1], whose values are in [0, 1]
    and whose temperature keeps the exponentials in the safe range. *)
Definition in_range (self : t) : Prop :=
  in_unit (_alpha self) /\ in_unit (q self).1 /\ in_unit (q self).2 /\
  (- exp_safe float64 <= _beta self <= exp_safe float64).

#[global] Instance agent `{NpExp} `{FloatExp} : Agent t :=
  {| agent_get_choice := get_choice; agent_update := update |}.
End AgentQ.

(** [AgentQ] with its floats as binary64 numbers: the same operations in
    the same order, each rounded to nearest. *)
Module AgentQ64.
Local Open Scope float_scope.

(** An [int] as a float; exact below [2^53]. *)
Fixpoint float_of_pos (p : positive) : float :=
  match p with
  | xH => 1
  | xO p' => 2 * float_of_pos p'
  | xI p' => 2 * float_of_pos p' + 1
  end.
Definition float_of_Z (z : Z) : float :=
  match z with
  | Z0 => 0
  | Zpos p => float_of_pos p
  | Zneg p => - float_of_pos p
  end.

Record t : Type := mk {
  _alpha : float;
  _beta : float;
  q : float * float
}.

Definition set_q (v : float * float) (self : t) : t :=
  {| _alpha := _alpha self; _beta := _beta self; q := v |}.

Definition getitem (v : float * float) (i : Z) : res float :=
  k ← index 2 i; mret (match k with O => v.1 | _ => v.2 end).
Definition setitem (v : float * float) (i : Z) (x : float) : res (float * float) :=
  k ← index 2 i; mret (match k with O => (x, v.2) | _ => (v.1, x) end).

Definition new_sess : M t unit :=
  modify (set_q (0.5 * 1, 0.5 * 1)).

Definition __init__ (alpha beta : float) : t :=
  (new_sess {| _alpha := alpha; _beta := beta; q := (0, 0) |}).2.

Definition update (choice reward : Z) : M t unit :=
  self ← get;
  old ← lift (getitem (q self) choice);
  q' ← lift (setitem (q self) choice
               ((1 - _alpha self) * old + _alpha self * float_of_Z reward));
  put (set_q q' self).

Fixpoint updates (trials : list (Z * Z)) : M t unit :=
  match trials with
  | [] => mret tt
  | (c, r) :: rest => _ ← update c r; updates rest
  end.
End AgentQ64.

Module AgentLeakyActorCritic.
Import Vec2 NpRandom.
Local Open Scope Q_scope.

Record t : Type := mk {
  _alpha_critic : Q;
  _alpha_actor_learn : Q;
  _alpha_actor_forget : Q;
  theta : vec2;
  v : Q
}.

Definition set_theta (th : vec2) (self : t) : t :=
  {| _alpha_critic := _alpha_critic self;
     _alpha_actor_learn := _alpha_actor_learn self;
     _alpha_actor_forget := _alpha_actor_forget self;
     theta := th; v := v self |}.
Definition set_v (x : Q) (self : t) : t :=
  {| _alpha_critic := _alpha_critic self;
     _alpha_actor_learn := _alpha_actor_learn self;
     _alpha_actor_forget := _alpha_actor_forget self;
     theta := theta self; v := x |}.

Definition new_sess : M t unit :=
  _ ← modify (set_theta (scale 0 ones));
  modify (set_v (1 # 2)).

Definition __init__ (alpha_critic alpha_actor_learn alpha_actor_forget : Q) : t :=
  (new_sess {| _alpha_critic := alpha_critic;
               _alpha_actor_learn := alpha_actor_learn;
               _alpha_actor_forget := alpha_actor_forget;
               theta := (0, 0); v := 0 |}).2.

Definition get_choice_probs `{NpExp} (self : t) : vec2 :=
  let e := (np_exp (theta self).1, np_exp (theta self).2) in
  let total := e.1 + e.2 in
  (e.1 / total, e.2 / total).

(** [np.random.choice] refuses probabilities that are not finite. *)
Definition get_choice `{NpExp} `{FloatExp} (self : t) : M RandomState Z :=
  let choice_probs := get_choice_probs self in
  if softmax_finite float64 [(theta self).1; (theta self).2]
  then choice 2 [choice_probs.1; choice_probs.2]
  else raise ValueError.

Definition update `{NpExp} (choice reward : Z) : M t unit :=
  let unchosen := (1 - choice)%Z in
  (* Actor learning *)
  self ← get;
  let choice_probs := get_choice_probs self in
  th_c ← lift (getitem (theta self) choice);
  p_c ← lift (getitem choice_probs choice);
  th ← lift (setitem (theta self) choice
               ((1 - _alpha_actor_forget self) * th_c
                + _alpha_actor_learn self * (inject_Z reward - v self) * (1 - p_c)));
  _ ← put (set_theta th self);
  self ← get;
  th_u ← lift (getitem (theta self) unchosen);
  p_u ← lift (getitem choice_probs unchosen);
  th ← lift (setitem (theta self) unchosen
               ((1 - _alpha_actor_forget self) * th_u
                - _alpha_actor_learn self * (inject_Z reward - v self) * p_u));
  _ ← put (set_theta th self);
  (* Critic learning: V moves towards reward *)
  self ← get;
  put (set_v ((1 - _alpha_critic self) * v self
              + _alpha_critic self * inject_Z reward) self).

#[global] Instance agent `{NpExp} `{FloatExp} : Agent t :=
  {| agent_get_choice := get_choice; agent_update := update |}.
End AgentLeakyActorCritic.

Module AgentNetwork.
Import Vec2 NpRandom.
Local Open Scope Q_scope.
Section Network.
(** The recurrent state of the network ([hk.State]). *)
Context {H : Type}.

(** [_model_fun] is the jitted [model.apply(params, xs, state)] on a batch
    of one: the output scores of that episode and the next state. *)
Record t : Type := mk {
  _initial_state : H;
  _model_fun : vec2 -> H -> list Q * H;
  _xs : vec2;
  _state : H
}.

Definition set_state (h : H) (self : t) : t :=
  {| _initial_state := _initial_state self; _model_fun := _model_fun self;
     _xs := _xs self; _state := h |}.
Definition set_xs (x : vec2) (self : t) : t :=
  {| _initial_state := _initial_state self; _model_fun := _model_fun self;
     _xs := x; _state := _state self |}.

Definition new_sess : M t unit :=
  self ← get; put (set_state (_initial_state self) self).

(** The constructor, given what [hk.transform] makes of [make_network] and
    [params]. *)
Definition __init__ (initial_state : H) (model_fun : vec2 -> H -> list Q * H) : t :=
  (new_sess {| _initial_state := initial_state; _model_fun := model_fun;
               _xs := (0, 0); _state := initial_state |}).2.

(** The float type of the scores the network returns: [float32] for a
    Haiku network, unless JAX is set to 64 bits. *)
Variable dt : dtype.

(** The choice probabilities; [None] stands for a float result that is not
    made of finite numbers. *)
Definition get_choice_probs `{NpExp} `{FloatExp} (self : t) : option (list Q) :=
  let output_logits := (_model_fun self (_xs self) (_state self)).1 in
  if softmax_finite dt output_logits || (length output_logits =? 0)%nat
  then Some (softmax output_logits)
  else None.

Definition get_choice `{NpExp} `{FloatExp} (self : t) : M RandomState Z :=
  match get_choice_probs self with
  | Some choice_probs => choice 2 choice_probs
  | None => raise ValueError
  end.

Definition update (choice reward : Z) : M t unit :=
  _ ← modify (set_xs (inject_Z choice, inject_Z reward));
  self ← get;
  put (set_state (_model_fun self (_xs self) (_state self)).2 self).

#[global] Instance agent `{NpExp} `{FloatExp} : Agent t :=
  {| agent_get_choice := get_choice; agent_update := update |}.
End Network.
Arguments t H : clear implicits.
End AgentNetwork.

(** An agent whose methods do what the runner relies on, in every state
    that satisfies [valid]: [get_choice] returns 0 or 1, and [update] with
    a choice and a reward that are 0 or 1 returns and keeps [valid]. *)
Class AgentOk {St : Type} `{Agent St} (valid : St -> Prop) : Prop := {
  get_choice_ok : forall s g, valid s ->
    exists c g', agent_get_choice s g = (Ok c, g') /\ (c = 0 \/ c = 1);
  update_ok : forall c r s, valid s -> (c = 0 \/ c = 1) -> (r = 0 \/ r = 1) ->
    exists s', agent_update c r s = (Ok tt, s') /\ valid s'
}.

(** A network agent is usable when its network has two output units,
    whose scores stay in the safe range of the exponential of their float
    type. *)
Definition two_outputs {H} (s : AgentNetwork.t H) : Prop :=
  forall xs h, length (AgentNetwork._model_fun s xs h).1 = 2%nat.
Definition bounded_outputs {H} (dt : NpRandom.dtype) (s : AgentNetwork.t H) : Prop :=
  forall xs h,
    Forall (fun x => - NpRandom.exp_safe dt <= x <= NpRandom.exp_safe dt)%Q
           (AgentNetwork._model_fun s xs h).1.
Definition usable_network {H} (dt : NpRandom.dtype) (s : AgentNetwork.t H) : Prop :=
  two_outputs s /\ bounded_outputs dt s.

(* ===================================================================== *)
(** ** Environments ([bandits.py])                                        *)
(* ===================================================================== *)

Module EnvironmentBanditsFlips.
Import Vec2 NpRandom.
Local Open Scope Q_scope.

Record t : Type := mk {
  _block_flip_prob : Q;
  _reward_prob_high : Q;
  _reward_prob_low : Q;
  _block : Z;
  reward_probabilities : vec2
}.

Definition new_block : M t unit :=
  modify (fun self =>
    (* Flip the block *)
    let block := (1 - _block self)%Z in
    (* Set the reward probabilites *)
    {| _block_flip_prob := _block_flip_prob self;
       _reward_prob_high := _reward_prob_high self;
       _reward_prob_low := _reward_prob_low self;
       _block := block;
       reward_probabilities :=
         if (block =? 1)%Z
         then (_reward_prob_high self, _reward_prob_low self)
         else (_reward_prob_low self, _reward_prob_high self) |}).

(** [reward_probabilities] is bound by [new_block], which the constructor
    calls last; the value given to it before that call is never read. *)
Definition __init__ (block_flip_prob reward_prob_high reward_prob_low : Q)
  : M RandomState t :=
  (* Choose a random block to start in *)
  block ← binomial_1 (1 # 2);
  (* Set up the new block *)
  construct {| _block_flip_prob := block_flip_prob;
               _reward_prob_high := reward_prob_high;
               _reward_prob_low := reward_prob_low;
               _block := block;
               reward_probabilities := (0, 0) |}
            (with_self new_block).

Definition next_trial (choice : Z) : M (t * RandomState) Z :=
  self ← gets fst;
  (* Choose the reward probability associated with the choice that the agent made *)
  reward_prob_trial ← lift (getitem (reward_probabilities self) choice);
  (* Sample a reward with this probability *)
  reward ← with_rng (binomial_1 reward_prob_trial);
  (* Check whether to flip the block *)
  flip ← with_rng (binomial_1 (_block_flip_prob self));
  _ ← (if negb (flip =? 0)%Z then with_self new_block else mret tt);
  (* Return the reward *)
  mret reward.

(** Successive trials, one per choice, with the rewards they return. *)
Fixpoint next_trials (choices : list Z) : M (t * RandomState) (list Z) :=
  match choices with
  | [] => mret []
  | c :: rest => r ← next_trial c; rs ← next_trials rest; mret (r :: rs)
  end.

(** The environments the constructor and [next_trial] can produce. *)
Inductive reachable (block_flip_prob high low : Q) : t -> Prop :=
| reach_init g e g' :
    __init__ block_flip_prob high low g = (Ok e, g') ->
    reachable block_flip_prob high low e
| reach_next_trial e choice g reward e' g' :
    reachable block_flip_prob high low e ->
    next_trial choice (e, g) = (Ok reward, (e', g')) ->
    reachable block_flip_prob high low e'.

Definition swap (p : vec2) : vec2 := (p.2, p.1).

(** What a constructed environment keeps: its parameters, a block that is
    0 or 1, and the probabilities [new_block] assigns to that block. *)
Definition consistent (block_flip_prob high low : Q) (e : t) : Prop :=
  _block_flip_prob e = block_flip_prob /\
  _reward_prob_high e = high /\ _reward_prob_low e = low /\
  (_block e = 1%Z /\ reward_probabilities e = (high, low) \/
   _block e = 0%Z /\ reward_probabilities e = (low, high)).
End EnvironmentBanditsFlips.

Module EnvironmentBanditsDrift.
Import Vec2 NpRandom.
Local Open Scope Q_scope.

Record t : Type := mk {
  _sigma : Q;
  reward_probs : vec2
}.

Definition set_reward_probs (p : vec2) (self : t) : t :=
  {| _sigma := _sigma self; reward_probs := p |}.

Definition _new_sess : M (t * RandomState) unit :=
  (* Pick new reward probabilities. Sample randomly between 0 and 1 *)
  p ← with_rng rand_2;
  with_self (modify (set_reward_probs p)).

(** [reward_probs] is bound by [_new_sess], which the constructor calls
    last; the value given to it before that call is never read. *)
Definition __init__ (sigma : Q) : M RandomState t :=
  (* Check inputs *)
  if Qltb sigma 0 then raise ValueError else
  (* Sample new reward probabilities *)
  construct {| _sigma := sigma; reward_probs := (0, 0) |} _new_sess.

(** Run a single trial of the task. *)
Definition step (choice : Z) : M (t * RandomState) Z :=
  (* Check inputs *)
  _ ← (if negb ((choice =? 0)%Z || (choice =? 1)%Z)
       then raise ValueError else mret tt);
  (* Sample reward with the probability of the chosen side *)
  u ← with_rng random_sample;
  self ← gets fst;
  p ← lift (getitem (reward_probs self) choice);
  let reward := Qltb u p in
  (* Add gaussian noise to reward probabilities *)
  drift ← with_rng (normal_2 0 (_sigma self));
  _ ← with_self (modify (fun self => set_reward_probs (add (reward_probs self) drift) self));
  (* Fix reward probs that've drifted below 0 or above 1 *)
  _ ← with_self (modify (fun self =>
         set_reward_probs (np_maximum (reward_probs self) (0, 0)) self));
  _ ← with_self (modify (fun self =>
         set_reward_probs (np_minimum (reward_probs self) (1, 1)) self));
  mret (Z.b2z reward).

(** Successive trials, one per choice, with the rewards they return. *)
Fixpoint steps (choices : list Z) : M (t * RandomState) (list Z) :=
  match choices with
  | [] => mret []
  | c :: rest => r ← step c; rs ← steps rest; mret (r :: rs)
  end.

(** The environments the constructor and [step] can produce. *)
Inductive reachable (sigma : Q) : t -> Prop :=
| reach_init g e g' :
    __init__ sigma g = (Ok e, g') -> reachable sigma e
| reach_step e choice g reward e' g' :
    reachable sigma e ->
    step choice (e, g) = (Ok reward, (e', g')) ->
    reachable sigma e'.

Definition probs_in_unit (e : t) : Prop :=
  in_unit (reward_probs e).1 /\ in_unit (reward_probs e).2.
End EnvironmentBanditsDrift.

(* ===================================================================== *)
(** ** The experiment runner ([bandits.run_experiment])                   *)
(* ===================================================================== *)

Record BanditSession : Type := mk_BanditSession {
  choices : list Q;
  rewards : list Q;
  reward_probs : list Vec2.vec2;
  n_trials : Z
}.

(** [Environment = Union[EnvironmentBanditsFlips, EnvironmentBanditsDrift]]. *)
Inductive Environment : Type :=
| Flips (e : EnvironmentBanditsFlips.t)
| Drift (e : EnvironmentBanditsDrift.t).

(** [environment.reward_probs]: an [EnvironmentBanditsDrift] has the
    attribute; an [EnvironmentBanditsFlips] has [_block_flip_prob],
    [_reward_prob_high], [_reward_prob_low], [_block],
    [reward_probabilities], [new_block] and [next_trial], and no other. *)
Definition getattr_reward_probs (environment : Environment) : res Vec2.vec2 :=
  match environment with
  | Drift e => Ok (EnvironmentBanditsDrift.reward_probs e)
  | Flips _ => Raise (AttributeError "reward_probs")
  end.

(** [environment.step(choice)]. *)
Definition call_step (choice : Z) : M (Environment * NpRandom.RandomState) Z :=
  fun '(environment, g) =>
    match environment with
    | Drift e =>
        let '(r, (e', g')) := EnvironmentBanditsDrift.step choice (e, g) in
        (r, (Drift e', g'))
    | Flips _ => (Raise (AttributeError "step"), (environment, g))
    end.

Section RunExperiment.
Context {St : Type} `{Agent St}.

(** The agent, the environment and the generator a run works on. *)
Definition World : Type := St * Environment * NpRandom.RandomState.

Definition w_agent (w : World) : St := w.1.1.
Definition w_environment (w : World) : Environment := w.1.2.
Definition w_rng (w : World) : NpRandom.RandomState := w.2.

Definition on_rng {A} (m : M NpRandom.RandomState A) : M World A :=
  zoom w_rng (fun g w => (w.1, g)) m.
Definition on_agent {A} (m : M St A) : M World A :=
  zoom w_agent (fun a w => (a, w.1.2, w.2)) m.
Definition on_environment {A} (m : M (Environment * NpRandom.RandomState) A)
  : M World A :=
  zoom (fun w => (w_environment w, w_rng w)) (fun eg w => (w.1.1, eg.1, eg.2)) m.

(** The body of the loop for one [trial], on the three logging arrays. *)
Definition run_trial (trial : nat) (logs : list Q * list Q * list Vec2.vec2)
  : M World (list Q * list Q * list Vec2.vec2) :=
  let '(choices, rewards, reward_probs) := logs in
  (* First record environment reward probs *)
  environment ← gets w_environment;
  probs ← lift (getattr_reward_probs environment);
  let reward_probs := <[trial := probs]> reward_probs in
  (* First agent makes a choice *)
  agent ← gets w_agent;
  choice ← on_rng (agent_get_choice agent);
  (* Then environment computes a reward *)
  reward ← on_environment (call_step choice);
  (* Finally agent learns *)
  _ ← on_agent (agent_update choice reward);
  (* Log choice and reward *)
  let choices := <[trial := inject_Z choice]> choices in
  let rewards := <[trial := inject_Z reward]> rewards in
  mret (choices, rewards, reward_probs).

Fixpoint run_trials (trials : list nat) (logs : list Q * list Q * list Vec2.vec2)
  : M World (list Q * list Q * list Vec2.vec2) :=
  match trials with
  | [] => mret logs
  | trial :: rest => logs' ← run_trial trial logs; run_trials rest logs'
  end.

(** Runs a behavioral session from a given agent and environment.
    [np.zeros] refuses a negative length. *)
Definition run_experiment (n_trials : Z) : M World BanditSession :=
  if (n_trials <? 0)%Z then raise ValueError else
  let n := Z.to_nat n_trials in
  let choices := replicate n 0%Q in
  let rewards := replicate n 0%Q in
  let reward_probs := replicate n (0%Q, 0%Q) in
  logs ← run_trials (seq 0 n) (choices, rewards, reward_probs);
  mret {| choices := logs.1.1; rewards := logs.1.2;
          n_trials := n_trials; reward_probs := logs.2 |}.

(** The world one trial leaves behind, whatever it logs. *)
Definition after_trial (w : World) : World := (run_trial 0 ([], [], []) w).2.

Fixpoint world_before (trial : nat) (w : World) : World :=
  match trial with
  | O => w
  | S k => world_before k (after_trial w)
  end.

(** A world whose agent is in a usable state and whose environment is a
    drifting one with a non-negative [sigma]. *)
Definition drift_world (valid : St -> Prop) (w : World) : Prop :=
  valid (w_agent w) /\
  exists e, w_environment w = Drift e /\ (0 <= EnvironmentBanditsDrift._sigma e)%Q.

(** An entry of a logging array that is 0 or 1. *)
Definition binary (x : Q) : Prop := x = 0%Q \/ x = 1%Q.
End RunExperiment.

(* ===================================================================== *)
(** ** The training loop ([rnn_utils.train_model])                        *)
(* ===================================================================== *)

Module RnnUtils.
Import Np.

(** The names [rnn_utils.py] binds at module level: what its [import]
    statements bring in ([import jax/numpy as jnp] binds [jnp] alone),
    its class and its two functions. *)
Definition module_globals : gset string :=
  {[ "Any"; "Callable"; "Dict"; "Optional"; "Tuple"; "np"; "jnp"; "hk";
     "optax"; "chex"; "DatasetRNN"; "nan_in_dict"; "train_model" ]}.

(** The loss functions [train_model] defines. *)
Inductive loss_fn : Type :=
| categorical_loss
| penalized_categorical_loss.

Definition losses : gmap string loss_fn :=
  {[ "categorical" := categorical_loss;
     "penalized_categorical" := penalized_categorical_loss ]}.

Section TrainModel.
Context {A : Type}.
(** Parameters, optimizer states, random keys, gradients and loss values
    are opaque to the loop. *)
Context {Params OptState Key Grads Loss : Type}.

(** [optax.GradientTransformation]. *)
Record GradientTransformation : Type := mk_opt {
  init : Params -> OptState;
  update : Grads -> OptState -> Grads * OptState
}.

(** The collaborators of the loop: key handling, [model.init],
    [jax.value_and_grad] of the selected loss (which raises on a label
    array whose last dimension is not 1), [optax.apply_updates], the NaN
    tests. *)
Variable PRNGKey : Z -> Key.
Variable split2 : Key -> Key * Key.
Variable split3 : Key -> Key * Key * Key.
Variable model_init : Key -> ndarray A -> Params.
Variable value_and_grad :
  loss_fn -> Params -> ndarray A -> ndarray A -> Key -> res (Loss * Grads).
Variable apply_updates : Params -> Grads -> Params.
Variable nan_in_dict : Params -> bool.
Variable isnan : Loss -> bool.

(** The global names visible when [train_model] runs, and what the names
    the function never binds itself denote where a namespace has them. *)
Variable globals : gset string.
Variable opt : GradientTransformation.
Variable clipped_grads : Grads.
Variable validation_loss : list Loss.

(** Reading a global name. *)
Definition name {S} (x : string) : M S unit :=
  if decide (x ∈ globals) then mret tt else raise (NameError x).

(** Define what it means to train a single step. *)
Definition train_step (compute_loss : loss_fn) (params : Params)
    (opt_state : OptState) (xs ys : ndarray A) (random_key : Key)
  : M (DatasetRNN.t A) (Loss * Params * OptState) :=
  _ ← name "jax";
  '(loss, grads) ← lift (value_and_grad compute_loss params xs ys random_key);
  _ ← name "opt";
  let '(grads, opt_state) := update opt grads opt_state in
  _ ← name "optax";
  _ ← name "clipped_grads";
  let params := apply_updates params clipped_grads in
  mret (loss, params, opt_state).

(** The local variables the loop threads from one step to the next;
    [loss] is the last training loss, once there is one. *)
Record locals : Type := mk_locals {
  l_random_key : Key;
  l_params : Params;
  l_opt_state : OptState;
  l_training_loss : list Loss;
  l_loss : option Loss
}.

Definition train_one (compute_loss : loss_fn) (step : Z) (l : locals)
  : M (DatasetRNN.t A) locals :=
  _ ← name "jax";
  let '(random_key, key1, key2) := split3 (l_random_key l) in
  (* Train on training data *)
  '(xs, ys) ← DatasetRNN.__next__;
  '(loss, params, opt_state) ←
     train_step compute_loss (l_params l) (l_opt_state l) xs ys key2;
  (* Log every 10th step *)
  training_loss ←
    (if (step mod 10 =? 9)%Z then
       _ ← name "l_validation";
       mret (l_training_loss l ++ [loss])
     else mret (l_training_loss l));
  mret {| l_random_key := random_key; l_params := params;
          l_opt_state := opt_state; l_training_loss := training_loss;
          l_loss := Some loss |}.

Fixpoint train_steps (compute_loss : loss_fn) (steps : list Z) (l : locals)
  : M (DatasetRNN.t A) locals :=
  match steps with
  | [] => mret l
  | step :: rest =>
      l' ← train_one compute_loss step l; train_steps compute_loss rest l'
  end.

(** [jnp.arange(n_steps)]: empty for a non-positive bound. *)
Definition arange (n : Z) : list Z := map Z.of_nat (seq 0 (Z.to_nat n)).

(** Trains a network.  The state is the training dataset, whose cursor
    [next] moves.  [optimizer] is the parameter of that name. *)
Definition train_model (optimizer : GradientTransformation)
    (random_key : option Key) (opt_state : option OptState)
    (params : option Params) (n_steps : Z) (loss : string) (do_plot : bool)
  : M (DatasetRNN.t A) (Params * OptState * list Loss) :=
  (* Get a sample input, for shape *)
  '(sample_xs, _) ← DatasetRNN.__next__;
  _ ← name "hk";
  (* PARSE INPUTS *)
  random_key ←
    match random_key with
    | None => _ ← name "jax"; mret (PRNGKey 0)
    | Some k => mret k
    end;
  (* If params have not been supplied, start training from scratch *)
  '(random_key, params) ←
    match params with
    | None =>
        _ ← name "jax";
        let '(random_key, key1) := split2 random_key in
        mret (random_key, model_init key1 sample_xs)
    | Some p => mret (random_key, p)
    end;
  (* It an optimizer state has not been supplied, start optimizer from scratch *)
  opt_state ←
    match opt_state with
    | None => _ ← name "opt"; mret (init opt params)
    | Some s => mret s
    end;
  (* the loss functions are defined; their annotations read [np] *)
  _ ← name "np";
  _ ← name "jax";
  compute_loss ←
    match losses !! loss with
    | Some f => mret f
    | None => raise (KeyError loss)
    end;
  (* [train_step] is defined under [@jax.jit] *)
  _ ← name "jax";
  _ ← name "Tuple";
  _ ← name "Any";
  (* Train the network! *)
  _ ← name "jnp";
  l ← train_steps compute_loss (arange n_steps)
        {| l_random_key := random_key; l_params := params;
           l_opt_state := opt_state; l_training_loss := []; l_loss := None |};
  (* If we actually did any training, print final loss and make a nice plot *)
  _ ← (if (1 <? n_steps)%Z && do_plot then name "plt" else mret tt);
  _ ← name "np";
  (* Check if anything has become NaN that should not be NaN *)
  _ ← name "nan_in_dict";
  _ ← (if nan_in_dict (l_params l) then raise ValueError else mret tt);
  _ ← (if match List.last (map Some (l_training_loss l)) None with
          | Some x => isnan x
          | None => false
          end
       then raise ValueError else mret tt);
  _ ← name "validation_loss";
  _ ← (if match List.last (map Some validation_loss) None with
          | Some x => isnan x
          | None => false
          end
       then raise ValueError else mret tt);
  mret (l_params l, l_opt_state l, l_training_loss l).
End TrainModel.
End RnnUtils.

(* ===================================================================== *)
(** ** Concrete inputs                                                    *)
(* ===================================================================== *)

Module Examples.
Import Np Vec2 NpRandom.

(** Inputs of shape [5, E, 3] and targets of shape [5, E, 1]. *)
Definition xs (E : nat) : ndarray Z :=
  tabulate 5 E 3 (fun t e f => Z.of_nat (100 * t + 10 * e + f)).
Definition ys (E : nat) : ndarray Z :=
  tabulate 5 E 1 (fun t e f => Z.of_nat (e mod 2)).

(** A generator with a fixed stream of draws. *)
Definition rng : RandomState :=
  {| pos := 0;
     bits := fun n => 6364136223846793005 * (Z.of_nat n + 1);
     gauss := fun n => Qmake (Z.of_nat (n mod 7) - 3) 2 |}.

(** A rational stand-in for [np.exp]. *)
Definition exp : NpExp :=
  {| np_exp := fun x => ((271828 # 100000) ^ Qfloor x)%Q;
     np_exp_pos := fun x => Qpower_0_lt (271828 # 100000)%Q (Qfloor x) eq_refl |}.

(** A float behaviour of the softmax: finite when no argument is above
    [exp_over] and some argument is not below [- exp_over]. *)
Definition float_exp : FloatExp :=
  {| softmax_finite := fun d l =>
       negb (existsb (fun x => Qltb (exp_over d) x) l)
       && existsb (fun x => negb (Qltb x (- exp_over d))) l |}.

(** A drifting environment after its construction and two trials. *)
Definition drift_run : res (list Z) * (EnvironmentBanditsDrift.t * RandomState) :=
  match EnvironmentBanditsDrift.__init__ (1 # 10)%Q rng with
  | (Ok e, g) => EnvironmentBanditsDrift.steps [1; 0] (e, g)
  | (Raise err, g) =>
      (Raise err, ({| EnvironmentBanditsDrift._sigma := (1 # 10)%Q;
                      EnvironmentBanditsDrift.reward_probs := (0%Q, 0%Q) |}, g))
  end.
Definition drift : EnvironmentBanditsDrift.t := drift_run.2.1.

(** A flipping environment that flips at every trial, as constructed. *)
Definition flips_run : res EnvironmentBanditsFlips.t * RandomState :=
  EnvironmentBanditsFlips.__init__ 1%Q (4 # 5)%Q (1 # 5)%Q rng.
Definition flips : EnvironmentBanditsFlips.t :=
  match flips_run.1 with
  | Ok e => e
  | Raise _ =>
      {| EnvironmentBanditsFlips._block_flip_prob := 1%Q;
         EnvironmentBanditsFlips._reward_prob_high := (4 # 5)%Q;
         EnvironmentBanditsFlips._reward_prob_low := (1 # 5)%Q;
         EnvironmentBanditsFlips._block := 0;
         EnvironmentBanditsFlips.reward_probabilities := (0%Q, 0%Q) |}
  end.

(** A training call with supplied key, optimizer state and parameters, over
    stand-ins for the network and the optimizer. *)
Definition opt : RnnUtils.GradientTransformation (Params:=Z) (OptState:=Z) (Grads:=Z) :=
  {| RnnUtils.init := fun p => 0; RnnUtils.update := fun gr s => (gr, s + 1) |}.

Definition train (globals : gset string) (n_steps : Z)
  : M (DatasetRNN.t Z) (Z * Z * list Z) :=
  RnnUtils.train_model (A:=Z) (Key:=Z) (Loss:=Z)
    (fun seed => seed) (fun k => (k + 1, k + 2)) (fun k => (k + 1, k + 2, k + 3))
    (fun _ _ => 0) (fun _ p _ _ _ => Ok (p, 1)) (fun p gr => p - gr)
    (fun _ => false) (fun _ => false) globals opt 0 []
    opt (Some 7) (Some 11) (Some 13) n_steps "categorical" true.
End Examples.

(* ===================================================================== *)
(** ** Sequences of agent updates                                         *)
(* ===================================================================== *)

(** [x ** n] for a natural number [n]. *)
Fixpoint pow_nat (x : Q) (n : nat) : Q :=
  match n with
  | O => 1%Q
  | S n' => (x * pow_nat x n')%Q
  end.



Section NetworkRuns.
Context {H : Type}.

(** Successive updates of a network agent, one per (choice, reward) pair. *)
Fixpoint network_updates (trials : list (Z * Z)) : M (AgentNetwork.t H) unit :=
  match trials with
  | [] => mret tt
  | (c, r) :: rest => _ ← AgentNetwork.update c r; network_updates rest
  end.

(** The recurrent state a network reaches from [h] by reading the
    (choice, reward) pairs of [trials] in order. *)
Fixpoint network_reads (model_fun : Vec2.vec2 -> H -> list Q * H)
    (trials : list (Z * Z)) (h : H) : H :=
  match trials with
  | [] => h
  | (c, r) :: rest =>
      network_reads model_fun rest (model_fun (inject_Z c, inject_Z r) h).2
  end.
End NetworkRuns.

(** The entries a trial with this choice and reward leaves in the
    [choices] and [rewards] arrays of a session. *)
Definition trial_choice (cr : Z * Z) : Q := inject_Z cr.1.
Definition trial_reward (cr : Z * Z) : Q := inject_Z cr.2.

(* ===================================================================== *)
(** ** [rnn_utils.nan_in_dict]                                            *)
(* ===================================================================== *)

Module Pytree.

(** A float that may be NaN. *)
Inductive float : Type :=
| NaN
| Num (x : Q).

(** [np.isnan] on one entry. *)
Definition isnan (x : float) : bool :=
  match x with NaN => true | Num _ => false end.

#[local] Set Warnings "-register-all".
(** What [nan_in_dict] is called on: an array of floats, or a dict whose
    values are such things (its items in insertion order). *)
Inductive pytree : Type :=
| Array (a : list float)
| Dict (items : list (string * pytree)).
#[local] Set Warnings "register-all".

(** Check a nested dict (e.g. hk.params) for nans. *)
Fixpoint nan_in_dict (d : pytree) : bool :=
  match d with
  | Array a => existsb isnan a
  | Dict items => existsb (fun kv => nan_in_dict kv.2) items
  end.

(** The entries of every array of a nested dict, left to right. *)
Fixpoint entries (d : pytree) : list float :=
  match d with
  | Array a => a
  | Dict items => flat_map (fun kv => entries kv.2) items
  end.
End Pytree.

(* ===================================================================== *)
(** ** Further concrete inputs                                            *)
(* ===================================================================== *)

Module Inputs.
Import Np Vec2 NpRandom.

(** Three trials of the task, as (choice, reward) pairs. *)
Definition trials : list (Z * Z) := [(0, 1); (1, 0); (0, 0)].

(** Ten episodes in batches of five, as the constructor leaves them. *)
Definition dataset : DatasetRNN.t Z :=
  {| DatasetRNN._xs := Examples.xs 10; DatasetRNN._ys := Examples.ys 10;
     DatasetRNN._batch_size := 5; DatasetRNN._dataset_size := 10;
     DatasetRNN._idx := 0; DatasetRNN.n_batches := 2 |}.

(** A flipping environment that never flips, as constructed. *)
Definition flips_still : EnvironmentBanditsFlips.t :=
  match (EnvironmentBanditsFlips.__init__ 0%Q (4 # 5)%Q (1 # 5)%Q Examples.rng).1 with
  | Ok e => e
  | Raise _ =>
      {| EnvironmentBanditsFlips._block_flip_prob := 0%Q;
         EnvironmentBanditsFlips._reward_prob_high := (4 # 5)%Q;
         EnvironmentBanditsFlips._reward_prob_low := (1 # 5)%Q;
         EnvironmentBanditsFlips._block := 0;
         EnvironmentBanditsFlips.reward_probabilities := (0%Q, 0%Q) |}
  end.

(** A drifting environment with no drift. *)
Definition drift_still : EnvironmentBanditsDrift.t :=
  {| EnvironmentBanditsDrift._sigma := 0%Q;
     EnvironmentBanditsDrift.reward_probs := ((1 # 4)%Q, (3 # 4)%Q) |}.

(** A network agent whose network has two output scores, the last choice
    and the last reward. *)
Definition network2 : AgentNetwork.t Z :=
  AgentNetwork.__init__ 0 (fun xs h => ([xs.1; xs.2], h + 1)).

(** A network agent whose network has three output scores. *)
Definition network3 : AgentNetwork.t Z :=
  AgentNetwork.__init__ 0 (fun xs h => ([inject_Z h; xs.1; xs.2], h + 1)).

(** A Q-learning agent whose temperature makes the exponentials overflow. *)
Definition hot_agent : AgentQ.t := AgentQ.__init__ (1 # 5)%Q 1500%Q.

(** The names [rnn_utils.py] binds, with [jax] imported as well. *)
Definition globals_with_jax : gset string := RnnUtils.module_globals ∪ {[ "jax" ]}.
End Inputs.

(* ===================================================================== *)
(** ** Proof automation: running the monad                                *)
(* ===================================================================== *)

Ltac mrun :=
  cbv beta iota delta
    [mbind mret M_bind M_ret res_bind res_ret get put gets modify lift raise zoom].

Ltac mrun_obj :=
  cbv beta iota delta
    [mbind mret M_bind M_ret res_bind res_ret get put gets modify lift raise zoom
     NpRandom.with_rng NpRandom.with_self NpRandom.construct fst snd].

Ltac mrun_world :=
  cbv beta iota delta
    [mbind mret M_bind M_ret res_bind res_ret get put gets modify lift raise zoom
     on_rng on_agent on_environment w_agent w_environment w_rng
     call_step getattr_reward_probs fst snd].

(* ===================================================================== *)
(** * Properties                                                          *)
(* ===================================================================== *)

(** ** The batched dataset *)

Section DatasetFacts.
Import Np.
Context {A : Type}.
Implicit Types (a xs ys : ndarray A) (ds : DatasetRNN.t A).

Lemma slice_bound_in_range (len i : nat) :
  (i <= len)%nat -> slice_bound len (Z.of_nat i) = i.
Proof.
  intros Hle. unfold slice_bound.
  assert (Hf : (Z.of_nat i <? 0) = false) by (apply Z.ltb_ge; lia).
  rewrite Hf. cbv zeta. rewrite Hf.
  destruct (Z.leb_spec (Z.of_nat len) (Z.of_nat i)); lia.
Qed.

Lemma slice_bounds_in_range (len lo n : nat) :
  (lo + n <= len)%nat ->
  slice_bounds len (Z.of_nat lo) (Z.of_nat lo + Z.of_nat n) = (lo, n).
Proof.
  intros Hle. unfold slice_bounds.
  rewrite <- Nat2Z.inj_add, !slice_bound_in_range by lia.
  f_equal. lia.
Qed.

Lemma lookup_take_drop {B} (l : list B) (lo n j : nat) :
  take n (drop lo l) !! j = if (j <? n)%nat then l !! (lo + j)%nat else None.
Proof.
  destruct (Nat.ltb_spec j n).
  - rewrite lookup_take_lt by lia. apply lookup_drop.
  - apply lookup_take_ge. lia.
Qed.

(** A slice that stays inside the episode axis holds exactly the episodes
    it names. *)
Lemma slice_axis1_episodes a (lo n : nat) :
  (lo + n <= shape1 a)%nat ->
  DatasetRNN.is_episodes a lo n
    (slice_axis1 a (Z.of_nat lo) (Z.of_nat lo + Z.of_nat n)).
Proof.
  intros Hle. unfold slice_axis1. rewrite slice_bounds_in_range by done.
  split; [done|]. intros t j f. unfold item. simpl.
  rewrite list_lookup_fmap.
  destruct (data a !! t) as [row|]; simpl; [|by destruct (j <? n)%nat].
  rewrite lookup_take_drop. by destruct (j <? n)%nat.
Qed.

Lemma init_Ok_inv xs ys batch_size ds :
  DatasetRNN.__init__ xs ys batch_size = Ok ds ->
  let B := DatasetRNN.batch_size_of xs batch_size in
  B <> 0 /\ shape0 xs = shape0 ys /\ shape1 xs = shape1 ys /\
  Z.of_nat (shape1 xs) mod B = 0 /\
  ds = {| DatasetRNN._xs := xs; DatasetRNN._ys := ys;
          DatasetRNN._batch_size := B;
          DatasetRNN._dataset_size := Z.of_nat (shape1 xs);
          DatasetRNN._idx := 0;
          DatasetRNN.n_batches := Z.of_nat (shape1 xs) / B |}.
Proof.
  intros Hinit. cbv zeta.
  unfold DatasetRNN.__init__, mod_, floordiv in Hinit.
  fold (DatasetRNN.batch_size_of xs batch_size) in Hinit.
  destruct (Nat.eqb_spec (shape0 xs) (shape0 ys)); simpl in Hinit; [|done].
  destruct (Nat.eqb_spec (shape1 xs) (shape1 ys)); simpl in Hinit; [|done].
  destruct (Z.eqb_spec (DatasetRNN.batch_size_of xs batch_size) 0);
    simpl in Hinit; [done|].
  destruct (Z.eqb_spec
              (Z.of_nat (shape1 xs) mod DatasetRNN.batch_size_of xs batch_size) 0);
    simpl in Hinit; [|done].
  injection Hinit as <-. done.
Qed.

(** A zero batch size reaches the modulo with the shapes in agreement. *)
Lemma init_batch_size_zero xs ys batch_size :
  shape0 xs = shape0 ys -> shape1 xs = shape1 ys ->
  DatasetRNN.batch_size_of xs batch_size = 0 ->
  DatasetRNN.__init__ xs ys batch_size = Raise ZeroDivisionError.
Proof.
  intros H0 H1 HB. unfold DatasetRNN.__init__, mod_.
  fold (DatasetRNN.batch_size_of xs batch_size).
  rewrite HB, H0, H1, !Nat.eqb_refl. reflexivity.
Qed.

(** X19.  For a batch size other than 0, the constructor raises
    ValueError exactly on a mismatch of the timestep counts, a mismatch of
    the episode counts, or an episode count the batch size does not divide,
    and constructs the dataset otherwise. *)
Lemma init_validates_nonzero xs ys batch_size :
  let B := DatasetRNN.batch_size_of xs batch_size in
  B <> 0 ->
  (DatasetRNN.__init__ xs ys batch_size = Raise ValueError <->
   shape0 xs <> shape0 ys \/ shape1 xs <> shape1 ys \/
   ~ (B | Z.of_nat (shape1 xs))) /\
  (is_Ok (DatasetRNN.__init__ xs ys batch_size) <->
   shape0 xs = shape0 ys /\ shape1 xs = shape1 ys /\
   (B | Z.of_nat (shape1 xs))).
Proof.
  intros B HB. unfold DatasetRNN.__init__, mod_, floordiv.
  fold (DatasetRNN.batch_size_of xs batch_size). fold B.
  pose proof (Z.mod_divide (Z.of_nat (shape1 xs)) B HB) as Hdiv.
  destruct (Nat.eqb_spec (shape0 xs) (shape0 ys)) as [H0|H0]; simpl;
    [|split; split; intros Hx; simpl in *; first [done | tauto]].
  destruct (Nat.eqb_spec (shape1 xs) (shape1 ys)) as [H1|H1]; simpl;
    [|split; split; intros Hx; simpl in *; first [done | tauto]].
  destruct (Z.eqb_spec B 0) as [|_]; [done|]. simpl.
  destruct (Z.eqb_spec (Z.of_nat (shape1 xs) mod B) 0) as [Hm|Hm]; simpl;
    split; split; intros Hx; simpl in *; first [done | tauto].
Qed.

Lemma next_in_range ds (lo n : nat) :
  DatasetRNN._idx ds = Z.of_nat lo ->
  DatasetRNN._batch_size ds = Z.of_nat n ->
  Z.of_nat lo + Z.of_nat n <= DatasetRNN._dataset_size ds ->
  DatasetRNN.__next__ ds =
    (Ok (slice_axis1 (DatasetRNN._xs ds) (Z.of_nat lo) (Z.of_nat lo + Z.of_nat n),
         slice_axis1 (DatasetRNN._ys ds) (Z.of_nat lo) (Z.of_nat lo + Z.of_nat n)),
     DatasetRNN.set_idx
       (if Z.of_nat lo + Z.of_nat n =? DatasetRNN._dataset_size ds then 0
        else Z.of_nat lo + Z.of_nat n) ds).
Proof.
  intros Hidx HB Hle. unfold DatasetRNN.__next__. mrun.
  rewrite Hidx, HB.
  destruct (Z.leb_spec (Z.of_nat lo + Z.of_nat n) (DatasetRNN._dataset_size ds)); [|lia].
  by destruct (Z.eqb_spec (Z.of_nat lo + Z.of_nat n) (DatasetRNN._dataset_size ds)).
Qed.

Lemma succ_mod (j nb : nat) :
  (0 < nb)%nat ->
  (S j mod nb = if (S (j mod nb) =? nb)%nat then 0 else S (j mod nb))%nat.
Proof.
  intros Hnb.
  pose proof (Nat.mod_upper_bound j nb ltac:(lia)) as Hlt.
  pose proof (Nat.div_mod_eq j nb) as Hj.
  destruct (Nat.eqb_spec (S (j mod nb)) nb) as [Heq|Hne].
  - symmetry. apply (Nat.mod_unique _ _ (S (j / nb))); [lia|]. nia.
  - symmetry. apply (Nat.mod_unique _ _ (j / nb)); [lia|]. nia.
Qed.

Lemma set_idx_set_idx ds i j :
  DatasetRNN.set_idx i (DatasetRNN.set_idx j ds) = DatasetRNN.set_idx i ds.
Proof. reflexivity. Qed.

(** From a cursor on a batch boundary, [n] calls return the next [n]
    batches in cyclic order and leave the cursor on the boundary that
    follows. *)
Lemma next_n_from ds0 (nb B : nat) :
  (0 < nb)%nat -> (0 < B)%nat ->
  DatasetRNN._batch_size ds0 = Z.of_nat B ->
  DatasetRNN._dataset_size ds0 = Z.of_nat (nb * B) ->
  forall n j, exists batches,
    DatasetRNN.next_n n (DatasetRNN.set_idx (Z.of_nat (j mod nb * B)) ds0)
    = (Ok batches, DatasetRNN.set_idx (Z.of_nat ((j + n) mod nb * B)) ds0) /\
    length batches = n /\
    forall k, (k < n)%nat ->
      batches !! k =
      Some (slice_axis1 (DatasetRNN._xs ds0) (Z.of_nat ((j + k) mod nb * B))
              (Z.of_nat ((j + k) mod nb * B) + Z.of_nat B),
            slice_axis1 (DatasetRNN._ys ds0) (Z.of_nat ((j + k) mod nb * B))
              (Z.of_nat ((j + k) mod nb * B) + Z.of_nat B)).
Proof.
  intros Hnb HB Hbs Hsize. induction n as [|n IH]; intros j.
  - exists []. rewrite Nat.add_0_r.
    split; [reflexivity|]. split; [reflexivity|]. intros k Hk. lia.
  - pose proof (Nat.mod_upper_bound j nb ltac:(lia)) as Hlt.
    destruct (IH (S j)) as (batches & Hrun & Hlen & Hnth).
    eexists (_ :: batches).
    cbn [DatasetRNN.next_n]. mrun.
    rewrite (next_in_range (DatasetRNN.set_idx (Z.of_nat (j mod nb * B)) ds0)
               (j mod nb * B) B eq_refl Hbs)
      by (cbn; rewrite Hsize; nia).
    cbn [DatasetRNN._dataset_size DatasetRNN.set_idx DatasetRNN._xs DatasetRNN._ys].
    rewrite set_idx_set_idx, Hsize.
    replace (if Z.of_nat (j mod nb * B) + Z.of_nat B =? Z.of_nat (nb * B)
             then 0 else Z.of_nat (j mod nb * B) + Z.of_nat B)
      with (Z.of_nat (S j mod nb * B)).
    2:{ rewrite succ_mod by done.
        destruct (Nat.eqb_spec (S (j mod nb)) nb) as [Heq|Hne];
          destruct (Z.eqb_spec (Z.of_nat (j mod nb * B) + Z.of_nat B)
                      (Z.of_nat (nb * B))); nia. }
    rewrite Hrun. replace (S j + n)%nat with (j + S n)%nat by lia.
    split; [reflexivity|]. split; [simpl; lia|].
    intros [|k] Hk.
    + rewrite Nat.add_0_r. reflexivity.
    + simpl. rewrite Hnth by lia. by replace (S j + k)%nat with (j + S k)%nat by lia.
Qed.

(** X18.  With at least one episode and a positive batch size [B] that
    divides the episode count [E], the [k]-th call of [next] returns the
    episodes [(k mod (E/B)) * B, (k mod (E/B)) * B + B) of [xs] and of [ys]
    with every timestep and feature, every batch has [B] episodes, the assertion
    holds at every call, and the cursor is back at 0 exactly after a slice
    that ends at [E]. *)
Lemma next_cyclic_positive xs ys batch_size ds (n : nat) :
  DatasetRNN.__init__ xs ys batch_size = Ok ds ->
  0 < DatasetRNN._batch_size ds ->
  (0 < shape1 xs)%nat ->
  let B := Z.to_nat (DatasetRNN._batch_size ds) in
  let nb := (shape1 xs / B)%nat in
  DatasetRNN.n_batches ds = Z.of_nat nb /\
  exists batches ds',
    DatasetRNN.next_n n ds = (Ok batches, ds') /\
    length batches = n /\
    (forall k, (k < n)%nat -> exists x y,
        batches !! k = Some (x, y) /\
        DatasetRNN.is_episodes xs (k mod nb * B) B x /\
        DatasetRNN.is_episodes ys (k mod nb * B) B y) /\
    DatasetRNN._idx ds' = Z.of_nat (n mod nb * B) /\
    (forall k, n = S k ->
       (DatasetRNN._idx ds' = 0 <-> (k mod nb * B + B)%nat = shape1 xs)).
Proof.
  intros Hinit HB HE B nb.
  destruct (init_Ok_inv _ _ _ _ Hinit) as (HB0 & _ & Hys & Hmod & Hds).
  set (Bz := DatasetRNN.batch_size_of xs batch_size) in *.
  assert (HBz : Bz = Z.of_nat B) by (subst B; rewrite Hds in *; simpl in *; lia).
  assert (HBpos : (0 < B)%nat) by (rewrite Hds in HB; simpl in HB; lia).
  assert (HEq : shape1 xs = (nb * B)%nat).
  { subst nb. rewrite HBz in Hmod.
    rewrite <- Nat2Z.inj_mod in Hmod.
    pose proof (Nat.div_mod_eq (shape1 xs) B). nia. }
  assert (Hnb : (0 < nb)%nat) by nia.
  split.
  { rewrite Hds. simpl. rewrite HBz, <- Nat2Z.inj_div. done. }
  destruct (next_n_from ds nb B Hnb HBpos) with (n := n) (j := 0%nat)
    as (batches & Hrun & Hlen & Hnth).
  { rewrite Hds. simpl. done. }
  { rewrite Hds. simpl. by rewrite HEq. }
  assert (Hds0 : DatasetRNN.set_idx (Z.of_nat (0 mod nb * B)) ds = ds).
  { rewrite Nat.Div0.mod_0_l. rewrite Hds. reflexivity. }
  rewrite Hds0 in Hrun. simpl in Hrun, Hnth.
  exists batches, (DatasetRNN.set_idx (Z.of_nat (n mod nb * B)) ds).
  split; [done|]. split; [done|]. split; [|split; [done|]].
  - intros k Hk. do 2 eexists. split; [by apply Hnth|].
    pose proof (Nat.mod_upper_bound k nb ltac:(lia)) as Hlt.
    rewrite Hds. simpl. split.
    + apply slice_axis1_episodes. nia.
    + apply slice_axis1_episodes. rewrite <- Hys. nia.
  - intros k ->. simpl. rewrite succ_mod by done.
    pose proof (Nat.mod_upper_bound k nb ltac:(lia)) as Hlt.
    destruct (Nat.eqb_spec (S (k mod nb)) nb); nia.
Qed.
End DatasetFacts.

(** The dataset of the specification's test: [xs] of shape [5, 10, 3], [ys]
    of shape [5, 10, 1] and a batch size of 5 give two batches, and the
    third call of [next] returns the first five episodes again. *)
Example next_wraps_on_third_call :
  exists ds b0 b1 b2 ds',
    DatasetRNN.__init__ (Examples.xs 10) (Examples.ys 10) (Some 5) = Ok ds /\
    DatasetRNN.n_batches ds = 2 /\
    DatasetRNN.next_n 3 ds = (Ok [b0; b1; b2], ds') /\
    b2 = b0 /\ b0 <> b1 /\
    b0 = (Np.tabulate 5 5 3 (fun t e f => Z.of_nat (100 * t + 10 * e + f)),
          Np.tabulate 5 5 1 (fun t e f => Z.of_nat (e mod 2))).
Proof.
  do 5 eexists. split; [reflexivity|]. split; [reflexivity|].
  split; [reflexivity|]. split; [reflexivity|]. split; [|reflexivity].
  intros Heq. discriminate Heq.
Qed.

(** The constructor refuses ten episodes in batches of three. *)
Example init_refuses_10_by_3 :
  DatasetRNN.__init__ (Examples.xs 10) (Examples.ys 10) (Some 3) = Raise ValueError.
Proof. reflexivity. Qed.

(** C2, where the code departs from it.  The constructor accepts a dataset
    with no episode and a batch size of 5 (0 is divisible by 5), and the
    first call of [next] on it fails the assertion [end <= dataset_size].
    It also accepts ten episodes with a batch size of -5: the first call
    returns five episodes, the second an empty batch, and the cursor moves
    to -10 and never wraps. *)
Theorem next_fails_on_accepted_dataset :
  (exists ds,
     DatasetRNN.__init__ (Examples.xs 0) (Examples.ys 0) (Some 5) = Ok ds /\
     DatasetRNN.__next__ ds = (Raise AssertionError, ds)) /\
  (exists ds b0 b1 ds',
     DatasetRNN.__init__ (Examples.xs 10) (Examples.ys 10) (Some (-5)) = Ok ds /\
     DatasetRNN.next_n 2 ds = (Ok [b0; b1], ds') /\
     Np.shape b0.1 = (5, 5, 3)%nat /\ Np.shape b1.1 = (5, 0, 3)%nat /\
     DatasetRNN._idx ds' = -10).
Proof.
  split.
  - eexists. split; reflexivity.
  - do 4 eexists. split; [reflexivity|]. split; [reflexivity|].
    split; [reflexivity|]. split; reflexivity.
Qed.

(** C8, where the code departs from it.  With shapes that agree, a batch
    size of 0 makes the constructor raise ZeroDivisionError: it neither
    raises the invalid-argument error (ValueError) nor constructs the
    dataset.  The same happens with the default batch size on a dataset
    that has no episode. *)
Theorem init_zero_batch_size_divides_by_zero :
  DatasetRNN.__init__ (Examples.xs 10) (Examples.ys 10) (Some 0)
  = Raise ZeroDivisionError /\
  DatasetRNN.__init__ (Examples.xs 0) (Examples.ys 0) None
  = Raise ZeroDivisionError.
Proof. split; reflexivity. Qed.

(** ** The training loop *)

Section Never.
Context {S A B : Type}.

Lemma never_returns_bind_l (m : M S A) (k : A -> M S B) :
  never_returns m -> never_returns (m ≫= k).
Proof.
  intros Hm s. destruct (Hm s) as (e & s' & Hrun).
  exists e, s'. unfold mbind, M_bind. by rewrite Hrun.
Qed.

Lemma never_returns_bind_r (m : M S A) (k : A -> M S B) :
  (forall a, never_returns (k a)) -> never_returns (m ≫= k).
Proof.
  intros Hk s. unfold mbind, M_bind.
  destruct (m s) as [[a|e] s']; [apply Hk | by exists e, s'].
Qed.
End Never.

Section TrainFacts.
Import Np RnnUtils.
Context {A Params OptState Key Grads Loss : Type}.
Variable PRNGKey : Z -> Key.
Variable split2 : Key -> Key * Key.
Variable split3 : Key -> Key * Key * Key.
Variable model_init : Key -> ndarray A -> Params.
Variable value_and_grad :
  loss_fn -> Params -> ndarray A -> ndarray A -> Key -> res (Loss * Grads).
Variable apply_updates : Params -> Grads -> Params.
Variable nan_in_dict : Params -> bool.
Variable isnan : Loss -> bool.
Variable globals : gset string.
Variable opt : GradientTransformation (Params:=Params) (OptState:=OptState) (Grads:=Grads).
Variable clipped_grads : Grads.
Variable validation_loss : list Loss.

Lemma name_unbound {S} x : x ∉ globals -> never_returns (name globals x : M S unit).
Proof.
  intros Hx s. unfold name. destruct (decide (x ∈ globals)); [done|].
  by exists (NameError x), s.
Qed.

(** X24.  In a namespace that does not bind [validation_loss], no call
    of [train_model] returns, whatever its arguments: every path to the
    [return] reads that name. *)
Lemma train_model_never_returns optimizer random_key opt_state params n_steps loss do_plot :
  "validation_loss" ∉ globals ->
  never_returns
    (train_model PRNGKey split2 split3 model_init value_and_grad apply_updates
       nan_in_dict isnan globals opt clipped_grads validation_loss
       optimizer random_key opt_state params n_steps loss do_plot).
Proof.
  intros Hg. unfold train_model.
  repeat lazymatch goal with
  | |- never_returns (let '(_, _) := ?p in _) => destruct p
  | |- never_returns (mbind _ (name _ "validation_loss")) =>
      apply never_returns_bind_l; by apply name_unbound
  | |- never_returns (mbind _ _) => apply never_returns_bind_r; intros ?
  end.
Qed.
End TrainFacts.

(** C6, where the code departs from it.  Called with [n_steps = 0] and
    with a key, an optimizer state and parameters supplied, [train_model]
    does not return them: under the names [rnn_utils.py] binds it raises
    NameError at [jax.jit] ([jax] is not imported there), and with [jax]
    bound as well it raises NameError at [len(validation_loss)], a name
    nothing binds.  Only the cursor of the dataset has moved. *)
Theorem train_model_zero_steps_raises :
  exists ds,
    DatasetRNN.__init__ (Examples.xs 10) (Examples.ys 10) (Some 5) = Ok ds /\
    Examples.train RnnUtils.module_globals 0 ds
    = (Raise (NameError "jax"), DatasetRNN.set_idx 5 ds) /\
    Examples.train (RnnUtils.module_globals ∪ {[ "jax" ]}) 0 ds
    = (Raise (NameError "validation_loss"), DatasetRNN.set_idx 5 ds).
Proof. eexists. split; [reflexivity|]. split; vm_compute; reflexivity. Qed.

(** ** Rational comparisons and indexing *)

Section QFacts.
Import Vec2.
Local Open Scope Q_scope.

Lemma Qltb_lt x y : Qltb x y = true <-> x < y.
Proof.
  unfold Qltb. rewrite negb_true_iff, <- not_true_iff_false, Qle_bool_iff.
  split; [apply Qnot_le_lt | apply Qlt_not_le].
Qed.

Lemma Qltb_ge x y : Qltb x y = false <-> y <= x.
Proof.
  unfold Qltb. rewrite negb_false_iff. apply Qle_bool_iff.
Qed.

Lemma Qltb_spec x y : reflect (x < y) (Qltb x y).
Proof.
  destruct (Qltb x y) eqn:E; constructor.
  - by apply Qltb_lt.
  - apply Qle_not_lt. by apply Qltb_ge.
Qed.
End QFacts.

(** ** The Q-learning agent *)

Section AgentQFacts.
Import Vec2 AgentQ.
Local Open Scope Q_scope.

Lemma update_0 reward self :
  update 0 reward self
  = (Ok tt, set_q (q_target (_alpha self) (q self).1 reward, (q self).2) self).
Proof. reflexivity. Qed.

Lemma update_1 reward self :
  update 1 reward self
  = (Ok tt, set_q ((q self).1, q_target (_alpha self) (q self).2 reward) self).
Proof. reflexivity. Qed.

Lemma q_target_in_unit alpha old reward :
  0 <= alpha <= 1 -> (reward = 0 \/ reward = 1)%Z ->
  in_unit old -> in_unit (q_target alpha old reward).
Proof.
  unfold in_unit, q_target. intros Ha [-> | ->] Ho.
  - change (inject_Z 0) with 0. split; nra.
  - change (inject_Z 1) with 1. split; nra.
Qed.

Lemma q_target_in_open_unit alpha old reward :
  0 < alpha < 1 -> (reward = 0 \/ reward = 1)%Z ->
  in_open_unit old -> in_open_unit (q_target alpha old reward).
Proof.
  unfold in_open_unit, q_target. intros Ha [-> | ->] Ho.
  - change (inject_Z 0) with 0. split; nra.
  - change (inject_Z 1) with 1. split; nra.
Qed.

(** A property of single values that every update keeps holds of both
    entries of [q] after any sequence of valid updates, none of which
    raises. *)
Lemma updates_invariant (P : Q -> Prop) trials :
  Forall valid_trial trials ->
  forall self,
  (forall old reward, (reward = 0 \/ reward = 1)%Z -> P old ->
     P (q_target (_alpha self) old reward)) ->
  P (q self).1 -> P (q self).2 ->
  exists self',
    updates trials self = (Ok tt, self') /\
    _alpha self' = _alpha self /\ _beta self' = _beta self /\
    P (q self').1 /\ P (q self').2.
Proof.
  induction 1 as [|[c r] trials [Hc Hr] _ IH]; intros self Hstep H1 H2.
  - exists self. done.
  - simpl in Hc, Hr. cbn [updates]. mrun.
    destruct Hc as [-> | ->].
    + rewrite update_0.
      destruct (IH (set_q (q_target (_alpha self) (q self).1 r, (q self).2) self))
        as (self' & Hrun & ? & ? & ? & ?); simpl; auto.
      exists self'. rewrite Hrun. done.
    + rewrite update_1.
      destruct (IH (set_q ((q self).1, q_target (_alpha self) (q self).2 r) self))
        as (self' & Hrun & ? & ? & ? & ?); simpl; auto.
      exists self'. rewrite Hrun. done.
Qed.

(** C10, as corrected.  From a fresh Q-learning agent with alpha in
    [0, 1], any finite sequence of updates with choices and rewards in
    {0, 1} runs without error and leaves both entries of [q] in the closed
    interval [0, 1].  The bounds are not strict in the code, whose floats
    are binary64: there [q] reaches exactly 1.0 and exactly 0.0. *)
Theorem AgentQ_q_stays_in_unit alpha beta trials :
  Forall valid_trial trials ->
  0 <= alpha <= 1 ->
  exists self, updates trials (__init__ alpha beta) = (Ok tt, self) /\
    in_unit (q self).1 /\ in_unit (q self).2.
Proof.
  intros Hvalid Ha.
  destruct (updates_invariant in_unit trials Hvalid (__init__ alpha beta))
    as (self & Hrun & _ & _ & H1 & H2).
  - intros old reward Hr Ho. by apply q_target_in_unit.
  - simpl. unfold in_unit. lra.
  - simpl. unfold in_unit. lra.
  - by exists self.
Qed.

(** C4, as corrected: the statement holds in exact arithmetic, which is
    how this file reads the floats of [AgentQ]; on binary64 floats the
    changes are not strict, an update can leave [q[choice]] where it was.
    Take a Q-learning agent with alpha in (0, 1), in the state [self]
    that any sequence of valid updates of a fresh agent leaves, and a
    choice in {0, 1}.  [update(choice, 1)] writes
    [(1 - alpha) * q[choice] + alpha * 1] at [q[choice]], which is strictly
    more than before; [update(choice, 0)] writes
    [(1 - alpha) * q[choice] + alpha * 0], strictly less than before; both
    leave [q[1 - choice]] as it was. *)
Theorem AgentQ_update_moves_chosen_arm alpha beta trials choice :
  0 < alpha < 1 ->
  Forall valid_trial trials ->
  (choice = 0 \/ choice = 1)%Z ->
  exists self old other,
    updates trials (__init__ alpha beta) = (Ok tt, self) /\
    getitem (q self) choice = Ok old /\
    getitem (q self) (1 - choice) = Ok other /\
    (exists self1,
       update choice 1 self = (Ok tt, self1) /\
       getitem (q self1) choice = Ok (q_target alpha old 1) /\
       old < q_target alpha old 1 /\
       getitem (q self1) (1 - choice) = Ok other) /\
    (exists self0,
       update choice 0 self = (Ok tt, self0) /\
       getitem (q self0) choice = Ok (q_target alpha old 0) /\
       q_target alpha old 0 < old /\
       getitem (q self0) (1 - choice) = Ok other).
Proof.
  intros Ha Hvalid Hc.
  destruct (updates_invariant in_open_unit trials Hvalid (__init__ alpha beta))
    as (self & Hrun & Halpha & _ & H1 & H2).
  { intros old reward Hr Ho. by apply q_target_in_open_unit. }
  { simpl. unfold in_open_unit. lra. }
  { simpl. unfold in_open_unit. lra. }
  simpl in Halpha. unfold in_open_unit in H1, H2.
  destruct Hc as [-> | ->].
  - exists self, (q self).1, (q self).2.
    split; [done|]. split; [reflexivity|]. split; [reflexivity|].
    split; eexists; (split; [apply update_0|]); rewrite Halpha; simpl;
      (split; [reflexivity|]); (split; [|reflexivity]);
      unfold q_target; [change (inject_Z 1) with 1 | change (inject_Z 0) with 0]; nra.
  - exists self, (q self).2, (q self).1.
    split; [done|]. split; [reflexivity|]. split; [reflexivity|].
    split; eexists; (split; [apply update_1|]); rewrite Halpha; simpl;
      (split; [reflexivity|]); (split; [|reflexivity]);
      unfold q_target; [change (inject_Z 1) with 1 | change (inject_Z 0) with 0]; nra.
Qed.
End AgentQFacts.

(** ** The drifting environment *)

Section DriftFacts.
Import Vec2 NpRandom EnvironmentBanditsDrift.
Local Open Scope Q_scope.

Lemma random_sample_range g :
  exists u, random_sample g = (Ok u, advance g) /\ 0 <= u /\ u < 1.
Proof.
  eexists. split; [reflexivity|].
  pose proof (Z.mod_pos_bound (bits g (pos g)) (Z.pos two53) eq_refl) as [Hlo Hhi].
  unfold Qle, Qlt. simpl. lia.
Qed.

Lemma clamp_in_unit (x : Q) :
  in_unit (if Qltb 1 (if Qltb x 0 then 0 else x) then 1
           else (if Qltb x 0 then 0 else x)).
Proof.
  unfold in_unit.
  destruct (Qltb_spec x 0) as [Hx|Hx].
  - destruct (Qltb_spec 1 0); lra.
  - destruct (Qltb_spec 1 x); lra.
Qed.

Lemma clamped_in_unit (p : vec2) :
  in_unit (np_minimum (np_maximum p (0, 0)) (1, 1)).1 /\
  in_unit (np_minimum (np_maximum p (0, 0)) (1, 1)).2.
Proof. split; apply clamp_in_unit. Qed.

Lemma init_valid sigma g :
  0 <= sigma ->
  exists e g', __init__ sigma g = (Ok e, g') /\ _sigma e = sigma /\ probs_in_unit e.
Proof.
  intros Hs. unfold __init__.
  destruct (Qltb_spec sigma 0) as [|_]; [lra|].
  destruct (random_sample_range g) as (u0 & Hu0 & ? & ?).
  destruct (random_sample_range (advance g)) as (u1 & Hu1 & ? & ?).
  unfold _new_sess, rand_2. mrun_obj. rewrite Hu0, Hu1.
  do 2 eexists. split; [reflexivity|]. split; [reflexivity|].
  unfold probs_in_unit, in_unit. simpl. lra.
Qed.

Lemma init_invalid sigma g :
  sigma < 0 -> __init__ sigma g = (Raise ValueError, g).
Proof.
  intros Hs. unfold __init__. by destruct (Qltb_spec sigma 0) as [_|]; [|lra].
Qed.

Lemma step_valid e g choice :
  0 <= _sigma e -> (choice = 0 \/ choice = 1)%Z ->
  exists reward e' g',
    step choice (e, g) = (Ok reward, (e', g')) /\
    (reward = 0 \/ reward = 1)%Z /\ _sigma e' = _sigma e /\ probs_in_unit e'.
Proof.
  intros Hs Hc.
  unfold step, normal_2, random_sample, standard_normal, getitem.
  destruct Hc as [-> | ->]; mrun_obj; simpl;
    (destruct (Qltb_spec (_sigma e) 0) as [|_]; [lra|]); simpl;
    (do 3 eexists; split; [reflexivity|]);
    (split; [by destruct (Qltb _ _); [right|left]|]);
    (split; [reflexivity|]); apply clamped_in_unit.
Qed.

Lemma step_invalid e g choice :
  ~ (choice = 0 \/ choice = 1)%Z ->
  step choice (e, g) = (Raise ValueError, (e, g)).
Proof.
  intros Hc. unfold step. mrun_obj.
  destruct (Z.eqb_spec choice 0); [tauto|].
  destruct (Z.eqb_spec choice 1); [tauto|]. reflexivity.
Qed.

Lemma reachable_inv sigma e :
  0 <= sigma -> reachable sigma e -> _sigma e = sigma /\ probs_in_unit e.
Proof.
  intros Hs. induction 1 as [g e g' Hinit | e c g r e' g' _ [IHs IHp] Hstep].
  - destruct (init_valid sigma g Hs) as (e0 & g0 & Hrun & ? & ?).
    rewrite Hrun in Hinit. by injection Hinit as <- _.
  - destruct (decide (c = 0 \/ c = 1)%Z) as [Hc|Hc].
    + destruct (step_valid e g c) as (r0 & e0 & g0 & Hrun & _ & ? & ?);
        [by rewrite IHs|done|].
      rewrite Hrun in Hstep. injection Hstep as _ <- _. split; [congruence|done].
    + rewrite step_invalid in Hstep by done. discriminate.
Qed.

(** C1.  With sigma >= 0 the constructor returns, and every environment
    [e] that the constructor and any finite sequence of [step] calls can
    produce has both reward probabilities in [0, 1]; from it, [step] with a
    choice in {0, 1} returns again. *)
Theorem Drift_reward_probs_stay_in_unit sigma e :
  0 <= sigma ->
  reachable sigma e ->
  (forall g, is_Ok (__init__ sigma g).1) /\
  in_unit (reward_probs e).1 /\ in_unit (reward_probs e).2 /\
  forall choice g, (choice = 0 \/ choice = 1)%Z -> is_Ok (step choice (e, g)).1.
Proof.
  intros Hs Hr. split.
  - intros g. destruct (init_valid sigma g Hs) as (e0 & g' & -> & _). exact I.
  - destruct (reachable_inv sigma e Hs Hr) as [Hsig [H1 H2]].
    split; [done|]. split; [done|]. intros c g Hc.
    destruct (step_valid e g c) as (r & e' & g' & -> & _);
      [by rewrite Hsig|done|exact I].
Qed.

(** C7.  The constructor raises exactly when its argument is negative, and
    then it raises ValueError without drawing from the generator; so it
    does for -0.1.  On an environment that the constructor (with
    sigma >= 0) and [step] calls can produce, [step] raises exactly when
    the choice is neither 0 nor 1, and then it raises ValueError and leaves
    the environment and the generator as they were. *)
Theorem Drift_validates_its_inputs sigma0 g0 sigma e choice g :
  0 <= sigma ->
  reachable sigma e ->
  ((exists err, (__init__ sigma0 g0).1 = Raise err) <-> sigma0 < 0) /\
  (sigma0 < 0 -> __init__ sigma0 g0 = (Raise ValueError, g0)) /\
  __init__ (- (1 # 10)) g0 = (Raise ValueError, g0) /\
  ((exists err, (step choice (e, g)).1 = Raise err)
   <-> ~ (choice = 0 \/ choice = 1)%Z) /\
  (~ (choice = 0 \/ choice = 1)%Z ->
   step choice (e, g) = (Raise ValueError, (e, g))).
Proof.
  intros Hs Hr.
  destruct (reachable_inv sigma e Hs Hr) as [Hsig _].
  split; [|split; [apply init_invalid|split; [reflexivity|split; [|apply step_invalid]]]].
  - split.
    + intros [err Herr]. destruct (Qlt_le_dec sigma0 0) as [|Hs0]; [done|].
      destruct (init_valid sigma0 g0 Hs0) as (e0 & g' & Hrun & _).
      rewrite Hrun in Herr. discriminate.
    + intros Hs0. rewrite init_invalid by done. by eexists.
  - split.
    + intros [err Herr] Hc.
      destruct (step_valid e g choice) as (r & e' & g' & Hrun & _);
        [by rewrite Hsig|done|].
      rewrite Hrun in Herr. discriminate.
    + intros Hc. rewrite step_invalid by done. by eexists.
Qed.
End DriftFacts.

(** ** The flipping environment *)

Section FlipsFacts.
Import Vec2 NpRandom EnvironmentBanditsFlips.
Local Open Scope Q_scope.

Lemma binomial_1_valid p g :
  in_unit p ->
  exists r, binomial_1 p g = (Ok r, advance g) /\ (r = 0 \/ r = 1)%Z.
Proof.
  intros [Hlo Hhi]. unfold binomial_1.
  destruct (Qltb_spec p 0) as [|_]; [lra|].
  destruct (Qltb_spec 1 p) as [|_]; [lra|]. simpl.
  unfold random_sample. mrun_obj.
  eexists. split; [reflexivity|].
  destruct (Qle_bool p (1 # 2)); destruct (Qltb _ _); auto.
Qed.

(** A Bernoulli draw with probability 1 is 1. *)
Lemma binomial_1_sure g : binomial_1 1 g = (Ok 1%Z, advance g).
Proof.
  unfold binomial_1. simpl.
  destruct (random_sample_range g) as (u & Hu & _ & Hlt).
  mrun_obj. rewrite Hu.
  by destruct (Qltb_spec 1 u) as [|_]; [lra|].
Qed.

Lemma new_block_consistent bfp high low e :
  _block_flip_prob e = bfp -> _reward_prob_high e = high ->
  _reward_prob_low e = low -> (_block e = 0 \/ _block e = 1)%Z ->
  consistent bfp high low (new_block e).2.
Proof.
  intros <- <- <- Hb. unfold consistent, new_block. mrun_obj. cbn.
  repeat split. destruct Hb as [-> | ->]; cbn; auto.
Qed.

Lemma init_consistent bfp high low g e g' :
  __init__ bfp high low g = (Ok e, g') -> consistent bfp high low e.
Proof.
  unfold __init__. mrun_obj.
  destruct (binomial_1_valid (1 # 2) g) as (b & Hrun & Hb).
  { unfold in_unit. lra. }
  rewrite Hrun. cbn. intros [= <- _].
  unfold consistent. cbn. repeat split.
  destruct Hb as [-> | ->]; cbn; auto.
Qed.

(** One trial of an environment that always flips: the reward is drawn
    with the probability the chosen arm has before the call, then the block
    flips once. *)
Lemma next_trial_flips high low e choice g :
  in_unit high -> in_unit low ->
  consistent 1 high low e -> (choice = 0 \/ choice = 1)%Z ->
  exists p reward e',
    getitem (reward_probabilities e) choice = Ok p /\
    binomial_1 p g = (Ok reward, advance g) /\
    next_trial choice (e, g) = (Ok reward, (e', advance (advance g))) /\
    _block e' = (1 - _block e)%Z /\
    reward_probabilities e' = swap (reward_probabilities e) /\
    consistent 1 high low e'.
Proof.
  intros Hh Hl (Hbfp & Hhigh & Hlow & Hblock) Hc.
  assert (exists p, getitem (reward_probabilities e) choice = Ok p /\ in_unit p)
    as (p & Hp & Hpu).
  { destruct Hblock as [[_ ->] | [_ ->]]; destruct Hc as [-> | ->];
      eexists; (split; [reflexivity|done]). }
  destruct (binomial_1_valid p g Hpu) as (reward & Hr & _).
  exists p, reward, (new_block e).2.
  split; [done|]. split; [done|].
  split; [|split; [|split]].
  - unfold next_trial. mrun_obj. rewrite Hp, Hr, Hbfp, binomial_1_sure. reflexivity.
  - reflexivity.
  - unfold new_block, swap. mrun_obj. cbn. rewrite Hhigh, Hlow.
    destruct Hblock as [[-> ->] | [-> ->]]; reflexivity.
  - apply new_block_consistent; try done.
    destruct Hblock as [[-> _] | [-> _]]; auto.
Qed.

Lemma reachable_consistent high low e :
  in_unit high -> in_unit low -> reachable 1 high low e -> consistent 1 high low e.
Proof.
  intros Hh Hl.
  induction 1 as [g e g' Hinit | e c g r e' g' _ IH Hstep].
  - by eapply init_consistent.
  - destruct (decide (c = 0 \/ c = 1)%Z) as [Hc|Hc].
    + destruct (next_trial_flips high low e c g Hh Hl IH Hc)
        as (p & r0 & e0 & _ & _ & Hrun & _ & _ & Hcons).
      rewrite Hrun in Hstep. by injection Hstep as _ <- _.
    + (* an index other than 0 and 1 that still reads an entry *)
      destruct IH as (Hbfp & Hhigh & Hlow & Hblock).
      unfold next_trial in Hstep. revert Hstep. mrun_obj.
      destruct (getitem (reward_probabilities e) c) as [p|] eqn:Hp; [|done].
      assert (in_unit p) as Hpu.
      { unfold getitem in Hp. destruct (index 2 c) as [[|k]|]; [| |done];
          cbn in Hp; injection Hp as <-;
          destruct Hblock as [[_ ->] | [_ ->]]; done. }
      destruct (binomial_1_valid p g Hpu) as (reward & Hr & _).
      rewrite Hr, Hbfp, binomial_1_sure. cbn. intros [= _ <- _].
      apply new_block_consistent; try done.
      destruct Hblock as [[-> _] | [-> _]]; auto.
Qed.

Lemma swap_swap (p : vec2) : swap (swap p) = p.
Proof. by destruct p. Qed.

(** Over any number of trials the two probabilities trade places at every
    trial: after an even number they are where they started. *)
Lemma next_trials_alternate high low choices :
  in_unit high -> in_unit low ->
  Forall (fun c => c = 0 \/ c = 1)%Z choices ->
  forall e g, consistent 1 high low e ->
  exists rewards e' g',
    next_trials choices (e, g) = (Ok rewards, (e', g')) /\
    length rewards = length choices /\
    consistent 1 high low e' /\
    reward_probabilities e' =
      if Nat.even (length choices) then reward_probabilities e
      else swap (reward_probabilities e).
Proof.
  intros Hh Hl. induction 1 as [|c choices Hc _ IH]; intros e g Hcons.
  - exists [], e, g. done.
  - destruct (next_trial_flips high low e c g Hh Hl Hcons Hc)
      as (p & r & e1 & _ & _ & Hrun & _ & Hswap & Hcons1).
    destruct (IH e1 (advance (advance g)) Hcons1)
      as (rewards & e' & g' & Hrest & Hlen & Hcons' & Hprobs).
    exists (r :: rewards), e', g'.
    cbn [next_trials]. unfold mbind at 1, M_bind at 1. rewrite Hrun.
    unfold mbind, M_bind. rewrite Hrest.
    split; [reflexivity|]. split; [simpl; lia|]. split; [done|].
    rewrite Hprobs, Hswap. cbn [length]. rewrite Nat.even_succ, <- Nat.negb_even.
    destruct (Nat.even (length choices)); cbn; [done|apply swap_swap].
Qed.

(** C5.  Take an environment [e] that the constructor with
    [block_flip_prob = 1] and probabilities in [0, 1], followed by any calls
    of [next_trial], can produce, and a choice in {0, 1}.  [next_trial]
    returns a reward drawn with the probability the chosen arm had before
    the call, and flips the block once: the block becomes [1 - block], and
    the arm that had the high probability has the low one afterwards and
    conversely; the environment it leaves is again such an environment, so
    this holds at every trial.  Over any sequence of trials the
    probabilities are back in place after an even number of trials and
    swapped after an odd number. *)
Theorem Flips_alternate_every_trial high low e choice g :
  in_unit high -> in_unit low ->
  reachable 1 high low e ->
  (choice = 0 \/ choice = 1)%Z ->
  (exists p reward e' g',
     getitem (reward_probabilities e) choice = Ok p /\
     binomial_1 p g = (Ok reward, advance g) /\
     next_trial choice (e, g) = (Ok reward, (e', g')) /\
     (_block e = 0 \/ _block e = 1)%Z /\
     _block e' = (1 - _block e)%Z /\
     (reward_probabilities e = (high, low) /\ reward_probabilities e' = (low, high)
      \/ reward_probabilities e = (low, high) /\ reward_probabilities e' = (high, low)) /\
     reachable 1 high low e') /\
  (forall choices, Forall (fun c => c = 0 \/ c = 1)%Z choices ->
   exists rewards e' g',
     next_trials choices (e, g) = (Ok rewards, (e', g')) /\
     length rewards = length choices /\
     reward_probabilities e' =
       if Nat.even (length choices) then reward_probabilities e
       else swap (reward_probabilities e)).
Proof.
  intros Hh Hl Hreach Hc.
  pose proof (reachable_consistent high low e Hh Hl Hreach) as Hcons.
  split.
  - destruct (next_trial_flips high low e choice g Hh Hl Hcons Hc)
      as (p & reward & e' & Hp & Hr & Hrun & Hb & Hswap & Hcons').
    exists p, reward, e', (advance (advance g)).
    split; [done|]. split; [done|]. split; [done|].
    destruct Hcons as (_ & _ & _ & Hblock).
    split; [destruct Hblock as [[-> _] | [-> _]]; auto|].
    split; [done|]. split.
    + rewrite Hswap. destruct Hblock as [[_ ->] | [_ ->]]; auto.
    + by eapply reach_next_trial.
  - intros choices Hchoices.
    destruct (next_trials_alternate high low choices Hh Hl Hchoices e g Hcons)
      as (rewards & e' & g' & Hrun & Hlen & _ & Hprobs).
    by exists rewards, e', g'.
Qed.
End FlipsFacts.

(** ** Sampling a choice, and the agents the runner can rely on *)

Section ChoiceFacts.
Import Vec2 NpRandom.
Local Open Scope Q_scope.

(** [np.random.choice(2, p)] on two non-negative entries that sum to 1
    accepts [p] and returns 0 or 1. *)
Lemma choice_2_valid p0 p1 g :
  0 <= p0 -> 0 <= p1 -> p0 + p1 == 1 ->
  exists c, choice 2 [p0; p1] g = (Ok c, advance g) /\ (c = 0 \/ c = 1)%Z.
Proof.
  intros H0 H1 Hsum. unfold choice. cbn [Z.leb Z.compare length Z.of_nat Z.eqb
    Pos.of_succ_nat Pos.succ Pos.eqb negb existsb fold_right orb].
  destruct (Qltb_spec p0 0) as [|_]; [lra|].
  destruct (Qltb_spec p1 0) as [|_]; [lra|]. cbn [orb].
  destruct (Qltb_spec atol (Qabs (p0 + (p1 + 0) - 1))) as [Habs|_].
  { exfalso. revert Habs. apply Qle_not_lt. apply Qabs_Qle_condition.
    unfold atol. split; [|]; lra. }
  destruct (random_sample_range g) as (u & Hu & Hulo & Huhi).
  mrun_obj. change (negb (Z.of_nat 2 =? 2)%Z) with false. cbv iota beta.
  rewrite Hu. eexists. split; [reflexivity|].
  unfold searchsorted_right, cumsum. cbn [cumsum_from map List.last List.filter].
  assert (Qle_bool ((0 + p0 + p1) / (0 + p0 + p1)) u = false) as ->.
  { apply not_true_iff_false. rewrite Qle_bool_iff.
    apply Qlt_not_le.
    assert ((0 + p0 + p1) / (0 + p0 + p1) == 1) as -> by (field; lra). done. }
  destruct (Qle_bool _ u); cbn; auto.
Qed.

Lemma softmax_2_valid `{NpExp} a b g :
  exists c,
    choice 2 [np_exp a / (np_exp a + np_exp b); np_exp b / (np_exp a + np_exp b)] g
    = (Ok c, advance g) /\ (c = 0 \/ c = 1)%Z.
Proof.
  pose proof (np_exp_pos a). pose proof (np_exp_pos b).
  apply choice_2_valid.
  - apply Qle_shift_div_l; lra.
  - apply Qle_shift_div_l; lra.
  - field. lra.
Qed.
End ChoiceFacts.

Lemma exp_safe_lt_over d : (NpRandom.exp_safe d < NpRandom.exp_over d)%Q.
Proof. by destruct d. Qed.

(** The float behaviour of the examples is one the class allows. *)
Lemma Examples_float_exp_ok : NpRandom.FloatExpOk (H := Examples.float_exp).
Proof.
  split.
  - intros d [|x l] Hne _ Hall; [done|]. cbn [NpRandom.softmax_finite Examples.float_exp].
    pose proof (exp_safe_lt_over d) as Hlt.
    apply andb_true_intro. split.
    + apply negb_true_iff, not_true_iff_false. intros Hex.
      apply existsb_exists in Hex as (y & Hin & Hy).
      rewrite List.Forall_forall in Hall. specialize (Hall y Hin).
      apply Qltb_lt in Hy. lra.
    + cbn [existsb]. apply orb_true_intro. left.
      apply List.Forall_inv in Hall. apply negb_true_iff, Qltb_ge. lra.
  - intros d l Hex. cbn [NpRandom.softmax_finite Examples.float_exp].
    apply andb_false_intro1, negb_false_iff, existsb_exists.
    apply List.Exists_exists in Hex as (y & Hin & Hy).
    exists y. split; [done|]. by apply Qltb_lt.
Qed.

Section AgentsOk.
Import Vec2 NpRandom.
Local Open Scope Q_scope.
Context `{NpExp} `{FloatExp} `{!FloatExpOk}.

(** In range, both arguments of the exponential are in the safe range. *)
Lemma in_range_safe (self : AgentQ.t) :
  AgentQ.in_range self ->
  softmax_finite float64
    [AgentQ._beta self * (AgentQ.q self).1; AgentQ._beta self * (AgentQ.q self).2]
  = true.
Proof.
  intros (_ & [? ?] & [? ?] & Hb). cbn [exp_safe] in Hb. destruct Hb as [? ?].
  apply softmax_finite_safe; [done|simpl; lia|].
  repeat (apply List.Forall_cons; [cbn [exp_safe]; split; nra|]).
  apply List.Forall_nil.
Qed.

Lemma AgentQ_get_choice_in_range (self : AgentQ.t) g :
  AgentQ.in_range self ->
  exists c, AgentQ.get_choice self g = (Ok c, advance g) /\ (c = 0 \/ c = 1)%Z.
Proof.
  intros Hr. unfold AgentQ.get_choice, AgentQ.get_choice_probs. cbn [fst snd].
  rewrite (in_range_safe self Hr). cbn [fst snd].
  apply softmax_2_valid.
Qed.

Lemma AgentQ_update_in_range c r (self : AgentQ.t) :
  AgentQ.in_range self -> (c = 0 \/ c = 1)%Z -> (r = 0 \/ r = 1)%Z ->
  exists self', AgentQ.update c r self = (Ok tt, self') /\ AgentQ.in_range self'.
Proof.
  intros (Ha & Hq1 & Hq2 & Hb) [-> | ->] Hr; eexists;
    (split; [first [apply update_0 | apply update_1]|]);
    unfold AgentQ.in_range; cbn [AgentQ._alpha AgentQ._beta AgentQ.q AgentQ.set_q fst snd];
    repeat (split; [first [done | by apply q_target_in_unit]|]); done.
Qed.

Lemma AgentQ_ok : AgentOk AgentQ.in_range.
Proof.
  split.
  - intros s g Hs. destruct (AgentQ_get_choice_in_range s g Hs) as (c & Hc & ?).
    by exists c, (advance g).
  - intros c r s Hs Hc Hr. by apply AgentQ_update_in_range.
Qed.

Lemma AgentNetwork_ok {Hid} dt :
  AgentOk (H := AgentNetwork.agent dt) (@usable_network Hid dt).
Proof.
  split.
  - intros s g [Hlen Hb]. cbn. unfold AgentNetwork.get_choice, AgentNetwork.get_choice_probs.
    specialize (Hlen (AgentNetwork._xs s) (AgentNetwork._state s)).
    specialize (Hb (AgentNetwork._xs s) (AgentNetwork._state s)).
    rewrite softmax_finite_safe; [| |lia|done].
    2:{ intros Hnil. by rewrite Hnil in Hlen. }
    cbn [orb].
    destruct (AgentNetwork._model_fun s (AgentNetwork._xs s) (AgentNetwork._state s)).1
      as [|a [|b [|]]]; try done.
    pose proof (np_exp_pos a). pose proof (np_exp_pos b).
    unfold softmax. cbn [map fold_right].
    destruct (choice_2_valid
                (np_exp a / (np_exp a + (np_exp b + 0)))
                (np_exp b / (np_exp a + (np_exp b + 0))) g)
      as (c & Hc & ?).
    + apply Qle_shift_div_l; lra.
    + apply Qle_shift_div_l; lra.
    + field. lra.
    + by exists c, (advance g).
  - intros c r s Hs _ _. eexists. split; [reflexivity|]. exact Hs.
Qed.
End AgentsOk.

#[global] Existing Instances AgentQ_ok AgentNetwork_ok.

(** ** The experiment runner *)

Section RunFacts.
Import Vec2 NpRandom.
Context {St : Type} `{Agent St} (valid : St -> Prop) `{!AgentOk valid}.

(** One trial in a drifting world: the row logged for the trial is the
    probabilities the environment has before it, the choice and the reward
    are 0 or 1, and the world it leaves does not depend on the logs. *)
Lemma run_trial_drift (w : World) :
  drift_world valid w ->
  exists probs c r w',
    getattr_reward_probs (w_environment w) = Ok probs /\
    (c = 0 \/ c = 1) /\ (r = 0 \/ r = 1) /\ drift_world valid w' /\
    forall trial logs,
      run_trial trial logs w
      = (Ok (<[trial := inject_Z c]> logs.1.1,
             <[trial := inject_Z r]> logs.1.2,
             <[trial := probs]> logs.2), w').
Proof.
  destruct w as [[a env] g]. intros [Ha (e & He & Hs)]. cbn in Ha, He. subst env.
  destruct (get_choice_ok a g Ha) as (c & g1 & Hchoice & Hc).
  destruct (step_valid e g1 c Hs Hc) as (r & e' & g2 & Hstep & Hr & Hsig & _).
  destruct (update_ok c r a Ha Hc Hr) as (a' & Hupd & Ha').
  exists (EnvironmentBanditsDrift.reward_probs e), c, r, (a', Drift e', g2).
  split; [reflexivity|]. split; [done|]. split; [done|]. split.
  { split; [done|]. exists e'. split; [reflexivity|]. by rewrite Hsig. }
  intros trial [[cs rs] ps]. unfold run_trial. mrun_world.
  rewrite Hchoice. mrun_world. rewrite Hstep. mrun_world. rewrite Hupd. reflexivity.
Qed.

Lemma inject_Z_binary c : (c = 0 \/ c = 1) -> binary (inject_Z c).
Proof. intros [-> | ->]; [left|right]; reflexivity. Qed.

(** Running the trials [i, i + n) on logs that are long enough: the
    entries before [i] are kept, and entry [i + k] holds the choice and the
    reward of the [k]-th of these trials and the probabilities of the world
    before it. *)
Lemma run_trials_seq n :
  forall i (logs : list Q * list Q * list vec2) (w : World),
  drift_world valid w ->
  (i + n <= length logs.1.1)%nat -> (i + n <= length logs.1.2)%nat ->
  (i + n <= length logs.2)%nat ->
  exists logs',
    run_trials (seq i n) logs w = (Ok logs', world_before n w) /\
    length logs'.1.1 = length logs.1.1 /\
    length logs'.1.2 = length logs.1.2 /\
    length logs'.2 = length logs.2 /\
    (forall t, (t < i)%nat ->
       logs'.1.1 !! t = logs.1.1 !! t /\ logs'.1.2 !! t = logs.1.2 !! t /\
       logs'.2 !! t = logs.2 !! t) /\
    (forall k, (k < n)%nat ->
       exists c r, binary c /\ binary r /\
         logs'.1.1 !! (i + k)%nat = Some c /\ logs'.1.2 !! (i + k)%nat = Some r /\
         exists probs,
           getattr_reward_probs (w_environment (world_before k w)) = Ok probs /\
           logs'.2 !! (i + k)%nat = Some probs).
Proof.
  induction n as [|n IH]; intros i logs w Hw H1 H2 H3.
  - exists logs. cbn. repeat split; try done. intros k Hk. lia.
  - destruct (run_trial_drift w Hw) as (p & c & r & w' & Hp & Hc & Hr & Hw' & Hrun).
    assert (after_trial w = w') as Hafter by (unfold after_trial; by rewrite Hrun).
    assert (run_trials (seq i (S n)) logs w
            = run_trials (seq (S i) n)
                (<[i := inject_Z c]> logs.1.1, <[i := inject_Z r]> logs.1.2,
                 <[i := p]> logs.2) w') as ->.
    { cbn [seq run_trials]. unfold mbind, M_bind. by rewrite Hrun. }
    cbn [world_before]. rewrite Hafter.
    destruct (IH (S i) (<[i := inject_Z c]> logs.1.1, <[i := inject_Z r]> logs.1.2,
                       <[i := p]> logs.2) w' Hw')
      as (logs' & Hrun' & L1 & L2 & L3 & Hkeep & Hset);
      cbn [fst snd]; rewrite ?length_insert; try lia.
    cbn [fst snd] in L1, L2, L3, Hkeep, Hset.
    rewrite length_insert in L1. rewrite length_insert in L2.
    rewrite length_insert in L3.
    exists logs'. split; [done|]. split; [done|]. split; [done|]. split; [done|].
    split.
    + intros t Ht. destruct (Hkeep t ltac:(lia)) as (-> & -> & ->).
      rewrite !list_lookup_insert_ne by lia. done.
    + intros [|k] Hk.
      * rewrite Nat.add_0_r. destruct (Hkeep i ltac:(lia)) as (-> & -> & ->).
        rewrite !list_lookup_insert_eq by lia.
        exists (inject_Z c), (inject_Z r).
        split; [by apply inject_Z_binary|]. split; [by apply inject_Z_binary|].
        split; [done|]. split; [done|]. exists p. done.
      * destruct (Hset k ltac:(lia)) as (c' & r' & ? & ? & E1 & E2 & p' & ? & E3).
        replace (i + S k)%nat with (S i + k)%nat by lia.
        exists c', r'. repeat (split; [done|]). exists p'.
        cbn [world_before]. rewrite Hafter. done.
Qed.

(** C3, as corrected: not for every agent, for some the run raises.
    For an agent whose
    [get_choice] and [update] do what the runner relies on (as those of a
    Q-learning agent in range and of a network agent with two bounded
    output scores do), a drifting environment with a non-negative sigma and
    [n_trials >= 0], [run_experiment] returns a
    session whose [choices], [rewards] and [reward_probs] have [n_trials]
    entries, every choice and reward being 0 or 1, whose [n_trials] field is
    [n_trials], and whose [reward_probs] row [t] is the reward probabilities
    of the environment before trial [t] ran. *)
Theorem run_experiment_drift_session (agent : St) (e : EnvironmentBanditsDrift.t)
    (g : RandomState) (n : Z) :
  valid agent -> (0 <= EnvironmentBanditsDrift._sigma e)%Q -> 0 <= n ->
  exists session w',
    run_experiment n (agent, Drift e, g) = (Ok session, w') /\
    length (choices session) = Z.to_nat n /\
    length (rewards session) = Z.to_nat n /\
    length (reward_probs session) = Z.to_nat n /\
    Forall binary (choices session) /\
    Forall binary (rewards session) /\
    n_trials session = n /\
    forall t, (t < Z.to_nat n)%nat ->
      exists probs,
        getattr_reward_probs
          (w_environment (world_before t (agent, Drift e, g))) = Ok probs /\
        reward_probs session !! t = Some probs.
Proof.
  intros Ha Hs Hn.
  assert (drift_world valid (agent, Drift e, g)) as Hw.
  { split; [done|]. by exists e. }
  destruct (run_trials_seq (Z.to_nat n) 0
              (replicate (Z.to_nat n) 0%Q, replicate (Z.to_nat n) 0%Q,
               replicate (Z.to_nat n) (0%Q, 0%Q)) _ Hw)
    as (logs & Hrun & L1 & L2 & L3 & _ & Hset);
    cbn [fst snd]; rewrite ?length_replicate; try lia.
  cbn [fst snd] in L1, L2, L3, Hset.
  rewrite length_replicate in L1. rewrite length_replicate in L2.
  rewrite length_replicate in L3.
  unfold run_experiment. destruct (Z.ltb_spec n 0); [lia|].
  unfold mbind, M_bind. rewrite Hrun.
  do 2 eexists. split; [reflexivity|]. cbn [choices rewards reward_probs n_trials].
  split; [done|]. split; [done|]. split; [done|].
  split; [|split; [|split; [done|]]].
  - apply Forall_lookup_2. intros t x Hx.
    assert (t < Z.to_nat n)%nat as Ht by (rewrite <- L1; by eapply lookup_lt_Some).
    destruct (Hset t Ht) as (c & r & Hc & _ & E1 & _). cbn in E1. congruence.
  - apply Forall_lookup_2. intros t x Hx.
    assert (t < Z.to_nat n)%nat as Ht by (rewrite <- L2; by eapply lookup_lt_Some).
    destruct (Hset t Ht) as (c & r & _ & Hr & _ & E2 & _). cbn in E2. congruence.
  - intros t Ht. destruct (Hset t Ht) as (_ & _ & _ & _ & _ & _ & p & Hp & E3).
    exists p. done.
Qed.
End RunFacts.

Section RunFlips.
Import NpRandom.
Context {St : Type} `{Agent St}.

Lemma run_experiment_needs_reward_probs (agent : St) (environment : Environment)
    (g : RandomState) (n : Z) :
  1 <= n ->
  is_Ok (run_experiment n (agent, environment, g)).1 ->
  is_Ok (getattr_reward_probs environment).
Proof.
  intros Hn. unfold run_experiment. destruct (Z.ltb_spec n 0); [lia|].
  destruct (Z.to_nat n) as [|k] eqn:Hk; [lia|].
  cbn [seq run_trials replicate]. unfold run_trial. mrun_world.
  destruct environment; [done|]. intros _. exact I.
Qed.

(** C9.  With any agent and [n_trials >= 1], [run_experiment] on a
    flipping environment raises AttributeError at the first statement of
    the first trial, the read of [environment.reward_probs], before the
    agent, the environment or the generator is touched; an environment
    with which a run of at least one trial completes is a drifting one. *)
Theorem run_experiment_flips_fails (agent : St) (e : EnvironmentBanditsFlips.t)
    (g : RandomState) (n : Z) :
  1 <= n ->
  run_experiment n (agent, Flips e, g)
  = (Raise (AttributeError "reward_probs"), (agent, Flips e, g)) /\
  forall environment,
    is_Ok (run_experiment n (agent, environment, g)).1 ->
    exists d, environment = Drift d.
Proof.
  intros Hn. split.
  - unfold run_experiment. destruct (Z.ltb_spec n 0); [lia|].
    destruct (Z.to_nat n) as [|k] eqn:Hk; [lia|].
    cbn [seq run_trials replicate]. unfold run_trial. mrun_world. reflexivity.
  - intros environment Hok.
    pose proof (run_experiment_needs_reward_probs agent environment g n Hn Hok) as Hattr.
    destruct environment as [f|d]; [done|]. by exists d.
Qed.
End RunFlips.

(** ** The theorems at concrete inputs *)

Lemma steps_reachable sigma choices :
  forall e g rewards e' g',
  EnvironmentBanditsDrift.reachable sigma e ->
  EnvironmentBanditsDrift.steps choices (e, g) = (Ok rewards, (e', g')) ->
  EnvironmentBanditsDrift.reachable sigma e'.
Proof.
  induction choices as [|c choices IH]; intros e g rewards e' g' Hr.
  - cbn. by intros [= _ <- _].
  - cbn [EnvironmentBanditsDrift.steps]. unfold mbind at 1, M_bind at 1.
    destruct (EnvironmentBanditsDrift.step c (e, g)) as [[r|err] [e1 g1]] eqn:Hstep;
      [|done].
    unfold mbind, M_bind.
    destruct (EnvironmentBanditsDrift.steps choices (e1, g1))
      as [[rs|err] [e2 g2]] eqn:Hrest; [|done].
    cbn. intros [= _ <- _].
    eapply IH; [|exact Hrest]. by eapply EnvironmentBanditsDrift.reach_step.
Qed.

Lemma example_drift_reachable :
  EnvironmentBanditsDrift.reachable (1 # 10)%Q Examples.drift.
Proof.
  eapply (steps_reachable _ [1; 0]).
  - eapply (EnvironmentBanditsDrift.reach_init _ Examples.rng). reflexivity.
  - reflexivity.
Qed.

Lemma example_flips_reachable :
  EnvironmentBanditsFlips.reachable 1%Q (4 # 5)%Q (1 # 5)%Q Examples.flips.
Proof.
  eapply (EnvironmentBanditsFlips.reach_init _ _ _ Examples.rng). reflexivity.
Qed.

Lemma Drift_reward_probs_stay_in_unit_witness :
  (0 <= 1 # 10)%Q /\
  EnvironmentBanditsDrift.reachable (1 # 10)%Q Examples.drift /\
  (forall g, is_Ok (EnvironmentBanditsDrift.__init__ (1 # 10)%Q g).1) /\
  Vec2.in_unit (EnvironmentBanditsDrift.reward_probs Examples.drift).1 /\
  Vec2.in_unit (EnvironmentBanditsDrift.reward_probs Examples.drift).2 /\
  forall choice g, (choice = 0 \/ choice = 1)%Z ->
    is_Ok (EnvironmentBanditsDrift.step choice (Examples.drift, g)).1.
Proof.
  assert (0 <= 1 # 10)%Q as Hs by (vm_compute; discriminate).
  split; [exact Hs|]. split; [exact example_drift_reachable|].
  exact (Drift_reward_probs_stay_in_unit (1 # 10)%Q Examples.drift Hs
           example_drift_reachable).
Defined.

Lemma Drift_validates_its_inputs_witness :
  (0 <= 1 # 10)%Q /\
  EnvironmentBanditsDrift.reachable (1 # 10)%Q Examples.drift /\
  ((exists err,
      (EnvironmentBanditsDrift.__init__ (- (1 # 10))%Q Examples.rng).1 = Raise err)
   <-> (- (1 # 10) < 0)%Q) /\
  ((- (1 # 10) < 0)%Q ->
   EnvironmentBanditsDrift.__init__ (- (1 # 10))%Q Examples.rng
   = (Raise ValueError, Examples.rng)) /\
  EnvironmentBanditsDrift.__init__ (- (1 # 10))%Q Examples.rng
  = (Raise ValueError, Examples.rng) /\
  ((exists err,
      (EnvironmentBanditsDrift.step 2 (Examples.drift, Examples.rng)).1 = Raise err)
   <-> ~ (2 = 0 \/ 2 = 1)) /\
  (~ (2 = 0 \/ 2 = 1) ->
   EnvironmentBanditsDrift.step 2 (Examples.drift, Examples.rng)
   = (Raise ValueError, (Examples.drift, Examples.rng))).
Proof.
  assert (0 <= 1 # 10)%Q as Hs by (vm_compute; discriminate).
  split; [exact Hs|]. split; [exact example_drift_reachable|].
  exact (Drift_validates_its_inputs (- (1 # 10))%Q Examples.rng (1 # 10)%Q
           Examples.drift 2 Examples.rng Hs example_drift_reachable).
Defined.

Lemma AgentQ_q_stays_in_unit_witness :
  Forall AgentQ.valid_trial [(0, 1); (1, 0); (0, 0)] /\
  (0 <= 1 # 10 <= 1)%Q /\
  exists self,
    AgentQ.updates [(0, 1); (1, 0); (0, 0)] (AgentQ.__init__ (1 # 10) 3)
    = (Ok tt, self) /\
    Vec2.in_unit (AgentQ.q self).1 /\ Vec2.in_unit (AgentQ.q self).2.
Proof.
  assert (Forall AgentQ.valid_trial [(0, 1); (1, 0); (0, 0)]) as Hv.
  { repeat (apply List.Forall_cons; [unfold AgentQ.valid_trial; cbn; lia|]).
    apply List.Forall_nil. }
  assert (0 <= 1 # 10 <= 1)%Q as Ha by (split; vm_compute; discriminate).
  split; [exact Hv|]. split; [exact Ha|].
  exact (AgentQ_q_stays_in_unit (1 # 10)%Q 3%Q [(0, 1); (1, 0); (0, 0)] Hv Ha).
Defined.

(** What C10 and C4 say of the bounds and of strict changes fails on
    binary64 floats.  With alpha = 0.5, 53 rewarded updates of arm 0 leave
    [q[0]] at exactly 1.0, and 1074 unrewarded ones leave it at exactly
    0.0. *)
Lemma AgentQ64_q_reaches_the_bounds :
  (exists self,
     AgentQ64.updates (replicate 53 (0, 1)) (AgentQ64.__init__ 0.5 3) = (Ok tt, self) /\
     AgentQ64.q self = (1, 0.5)%float) /\
  (exists self,
     AgentQ64.updates (replicate 1074 (0, 0)) (AgentQ64.__init__ 0.5 3) = (Ok tt, self) /\
     AgentQ64.q self = (0, 0.5)%float).
Proof. split; eexists; split; vm_compute; reflexivity. Qed.

(** With alpha the float nearest to 0.1, 326 rewarded updates of arm 0
    leave [q[0]] at 0.99999999999999944, strictly between 0 and 1, and one
    more rewarded update leaves it there: it does not increase.  With
    alpha = 0.5, once [q[0]] is 0.0 an unrewarded update does not decrease
    it. *)
Lemma AgentQ64_update_can_leave_q_unchanged :
  (exists self self1,
     AgentQ64.updates (replicate 326 (0, 1))
       (AgentQ64.__init__ 0x1.999999999999ap-4 3) = (Ok tt, self) /\
     PrimFloat.ltb 0 (AgentQ64.q self).1 = true /\
     PrimFloat.ltb (AgentQ64.q self).1 1 = true /\
     AgentQ64.update 0 1 self = (Ok tt, self1) /\
     PrimFloat.ltb (AgentQ64.q self).1 (AgentQ64.q self1).1 = false /\
     AgentQ64.q self1 = AgentQ64.q self) /\
  (exists self self0,
     AgentQ64.updates (replicate 1074 (0, 0)) (AgentQ64.__init__ 0.5 3) = (Ok tt, self) /\
     AgentQ64.update 0 0 self = (Ok tt, self0) /\
     PrimFloat.ltb (AgentQ64.q self0).1 (AgentQ64.q self).1 = false /\
     AgentQ64.q self0 = AgentQ64.q self).
Proof.
  split; do 2 eexists; (split; [vm_compute; reflexivity|]);
    repeat split; vm_compute; reflexivity.
Qed.

Lemma AgentQ_update_moves_chosen_arm_witness :
  (0 < 1 # 10 < 1)%Q /\
  Forall AgentQ.valid_trial [(0, 1); (1, 0); (0, 0)] /\
  (0 = 0 \/ 0 = 1) /\
  exists self old other,
    AgentQ.updates [(0, 1); (1, 0); (0, 0)] (AgentQ.__init__ (1 # 10) 3)
    = (Ok tt, self) /\
    Vec2.getitem (AgentQ.q self) 0 = Ok old /\
    Vec2.getitem (AgentQ.q self) (1 - 0) = Ok other /\
    (exists self1,
       AgentQ.update 0 1 self = (Ok tt, self1) /\
       Vec2.getitem (AgentQ.q self1) 0 = Ok (AgentQ.q_target (1 # 10) old 1) /\
       (old < AgentQ.q_target (1 # 10) old 1)%Q /\
       Vec2.getitem (AgentQ.q self1) (1 - 0) = Ok other) /\
    (exists self0,
       AgentQ.update 0 0 self = (Ok tt, self0) /\
       Vec2.getitem (AgentQ.q self0) 0 = Ok (AgentQ.q_target (1 # 10) old 0) /\
       (AgentQ.q_target (1 # 10) old 0 < old)%Q /\
       Vec2.getitem (AgentQ.q self0) (1 - 0) = Ok other).
Proof.
  assert (0 < 1 # 10 < 1)%Q as Ha by (split; reflexivity).
  assert (Forall AgentQ.valid_trial [(0, 1); (1, 0); (0, 0)]) as Hv.
  { repeat (apply List.Forall_cons; [unfold AgentQ.valid_trial; cbn; lia|]).
    apply List.Forall_nil. }
  assert (0 = 0 \/ 0 = 1) as Hc by lia.
  split; [exact Ha|]. split; [exact Hv|]. split; [exact Hc|].
  exact (AgentQ_update_moves_chosen_arm (1 # 10)%Q 3%Q [(0, 1); (1, 0); (0, 0)] 0
           Ha Hv Hc).
Defined.

Lemma Flips_alternate_every_trial_witness :
  Vec2.in_unit (4 # 5) /\ Vec2.in_unit (1 # 5) /\
  EnvironmentBanditsFlips.reachable 1%Q (4 # 5)%Q (1 # 5)%Q Examples.flips /\
  (0 = 0 \/ 0 = 1) /\
  (exists p reward e' g',
     Vec2.getitem (EnvironmentBanditsFlips.reward_probabilities Examples.flips) 0
     = Ok p /\
     NpRandom.binomial_1 p Examples.rng = (Ok reward, NpRandom.advance Examples.rng) /\
     EnvironmentBanditsFlips.next_trial 0 (Examples.flips, Examples.rng)
     = (Ok reward, (e', g')) /\
     (EnvironmentBanditsFlips._block Examples.flips = 0 \/
      EnvironmentBanditsFlips._block Examples.flips = 1) /\
     EnvironmentBanditsFlips._block e'
     = 1 - EnvironmentBanditsFlips._block Examples.flips /\
     (EnvironmentBanditsFlips.reward_probabilities Examples.flips
      = ((4 # 5)%Q, (1 # 5)%Q) /\
      EnvironmentBanditsFlips.reward_probabilities e' = ((1 # 5)%Q, (4 # 5)%Q)
      \/ EnvironmentBanditsFlips.reward_probabilities Examples.flips
         = ((1 # 5)%Q, (4 # 5)%Q) /\
         EnvironmentBanditsFlips.reward_probabilities e' = ((4 # 5)%Q, (1 # 5)%Q)) /\
     EnvironmentBanditsFlips.reachable 1%Q (4 # 5)%Q (1 # 5)%Q e') /\
  (forall choices, Forall (fun c => c = 0 \/ c = 1) choices ->
   exists rewards e' g',
     EnvironmentBanditsFlips.next_trials choices (Examples.flips, Examples.rng)
     = (Ok rewards, (e', g')) /\
     length rewards = length choices /\
     EnvironmentBanditsFlips.reward_probabilities e' =
       if Nat.even (length choices)
       then EnvironmentBanditsFlips.reward_probabilities Examples.flips
       else EnvironmentBanditsFlips.swap
              (EnvironmentBanditsFlips.reward_probabilities Examples.flips)).
Proof.
  assert (Vec2.in_unit (4 # 5)) as Hh by (split; vm_compute; discriminate).
  assert (Vec2.in_unit (1 # 5)) as Hl by (split; vm_compute; discriminate).
  assert (0 = 0 \/ 0 = 1) as Hc by lia.
  split; [exact Hh|]. split; [exact Hl|].
  split; [exact example_flips_reachable|]. split; [exact Hc|].
  exact (Flips_alternate_every_trial (4 # 5)%Q (1 # 5)%Q Examples.flips 0
           Examples.rng Hh Hl example_flips_reachable Hc).
Defined.

Lemma run_experiment_drift_session_witness :
  AgentQ.in_range (AgentQ.__init__ (1 # 5) 3) /\
  (0 <= EnvironmentBanditsDrift._sigma Examples.drift)%Q /\
  0 <= 100 /\
  exists session w',
    run_experiment (H := @AgentQ.agent Examples.exp Examples.float_exp) 100
      (AgentQ.__init__ (1 # 5) 3, Drift Examples.drift, Examples.rng)
    = (Ok session, w') /\
    length (choices session) = Z.to_nat 100 /\
    length (rewards session) = Z.to_nat 100 /\
    length (reward_probs session) = Z.to_nat 100 /\
    Forall binary (choices session) /\
    Forall binary (rewards session) /\
    n_trials session = 100 /\
    forall t, (t < Z.to_nat 100)%nat ->
      exists probs,
        getattr_reward_probs
          (w_environment
             (world_before (H := @AgentQ.agent Examples.exp Examples.float_exp) t
                (AgentQ.__init__ (1 # 5) 3, Drift Examples.drift, Examples.rng)))
        = Ok probs /\
        reward_probs session !! t = Some probs.
Proof.
  assert (AgentQ.in_range (AgentQ.__init__ (1 # 5) 3)) as Ha
    by (repeat split; vm_compute; discriminate).
  assert (0 <= EnvironmentBanditsDrift._sigma Examples.drift)%Q as Hs
    by (vm_compute; discriminate).
  assert (0 <= 100) as Hn by lia.
  split; [exact Ha|]. split; [exact Hs|]. split; [exact Hn|].
  exact (@run_experiment_drift_session AgentQ.t
           (@AgentQ.agent Examples.exp Examples.float_exp) AgentQ.in_range
           (@AgentQ_ok Examples.exp Examples.float_exp Examples_float_exp_ok)
           (AgentQ.__init__ (1 # 5) 3) Examples.drift Examples.rng 100 Ha Hs Hn).
Defined.

(** What C3 says of every agent fails for two of them: a network agent
    with three output scores, and a Q-learning agent whose temperature
    makes [np.exp] overflow.  Either run raises ValueError at the first
    [get_choice], before anything is drawn or changed. *)
Lemma run_experiment_fails_for_some_agents :
  run_experiment
    (H := @AgentNetwork.agent Z NpRandom.float32 Examples.exp Examples.float_exp) 100
    (Inputs.network3, Drift Examples.drift, Examples.rng)
  = (Raise ValueError, (Inputs.network3, Drift Examples.drift, Examples.rng)) /\
  run_experiment (H := @AgentQ.agent Examples.exp Examples.float_exp) 100
    (Inputs.hot_agent, Drift Examples.drift, Examples.rng)
  = (Raise ValueError, (Inputs.hot_agent, Drift Examples.drift, Examples.rng)).
Proof. split; vm_compute; reflexivity. Qed.

Lemma run_experiment_flips_fails_witness :
  1 <= 100 /\
  run_experiment (H := @AgentQ.agent Examples.exp Examples.float_exp) 100
    (AgentQ.__init__ (1 # 5) 3, Flips Examples.flips, Examples.rng)
  = (Raise (AttributeError "reward_probs"),
     (AgentQ.__init__ (1 # 5) 3, Flips Examples.flips, Examples.rng)) /\
  forall environment,
    is_Ok (run_experiment (H := @AgentQ.agent Examples.exp Examples.float_exp) 100
             (AgentQ.__init__ (1 # 5) 3, environment, Examples.rng)).1 ->
    exists d, environment = Drift d.
Proof.
  assert (1 <= 100) as Hn by lia.
  split; [exact Hn|].
  exact (@run_experiment_flips_fails AgentQ.t
           (@AgentQ.agent Examples.exp Examples.float_exp)
           (AgentQ.__init__ (1 # 5) 3) Examples.flips Examples.rng 100 Hn).
Defined.

(* ===================================================================== *)
(** * Further properties                                                  *)
(* ===================================================================== *)

(** ** The Q-learning agent: choice probabilities, indexing, sessions *)

Section AgentQChoice.
Import Vec2 NpRandom AgentQ.
Local Open Scope Q_scope.
Context `{NpExp} `{FloatExp} `{!FloatExpOk}.

Lemma get_choice_probs_safe (self : t) :
  - exp_safe float64 <= _beta self * (q self).1 <= exp_safe float64 ->
  - exp_safe float64 <= _beta self * (q self).2 <= exp_safe float64 ->
  get_choice_probs self
  = Some (np_exp (_beta self * (q self).1)
          / (np_exp (_beta self * (q self).1) + np_exp (_beta self * (q self).2)),
          np_exp (_beta self * (q self).2)
          / (np_exp (_beta self * (q self).1) + np_exp (_beta self * (q self).2))).
Proof.
  intros Hx1 Hx2. unfold get_choice_probs. cbn [fst snd].
  rewrite softmax_finite_safe; [done|done|simpl; lia|].
  repeat (apply List.Forall_cons; [done|]). apply List.Forall_nil.
Qed.

Lemma get_choice_probs_over (self : t) :
  exp_over float64 < _beta self * (q self).1 \/
  exp_over float64 < _beta self * (q self).2 ->
  get_choice_probs self = None.
Proof.
  intros Hover. unfold get_choice_probs. cbn [fst snd].
  rewrite softmax_finite_over; [done|].
  destruct Hover; [apply List.Exists_cons_hd | apply List.Exists_cons_tl, List.Exists_cons_hd];
    done.
Qed.

(** X1.  When both [beta * q[i]] are in the safe range of the float64
    exponential, [-700, 700], the choice probabilities of a Q-learning
    agent are finite and, in exact arithmetic, a distribution: both are in
    [0, 1] and they sum to 1; when the two entries of [q] are equal, as in a
    fresh agent, both are 1/2.  When some [beta * q[i]] is above 710 the
    exponential overflows and the result is not made of finite numbers. *)
Theorem AgentQ_choice_probs_distribution (self : t) :
  (- exp_safe float64 <= _beta self * (q self).1 <= exp_safe float64 ->
   - exp_safe float64 <= _beta self * (q self).2 <= exp_safe float64 ->
   exists p,
     get_choice_probs self = Some p /\
     in_unit p.1 /\ in_unit p.2 /\ p.1 + p.2 == 1 /\
     ((q self).1 = (q self).2 -> p.1 == 1 # 2 /\ p.2 == 1 # 2)) /\
  (exp_over float64 < _beta self * (q self).1 \/
   exp_over float64 < _beta self * (q self).2 ->
   get_choice_probs self = None).
Proof.
  split; [|apply get_choice_probs_over].
  intros Hx1 Hx2. eexists. split; [by apply get_choice_probs_safe|]. cbn [fst snd].
  pose proof (np_exp_pos (_beta self * (q self).1)) as Ha.
  pose proof (np_exp_pos (_beta self * (q self).2)) as Hb.
  unfold in_unit.
  split; [|split; [|split]].
  - split; [apply Qle_shift_div_l; lra | apply Qle_shift_div_r; lra].
  - split; [apply Qle_shift_div_l; lra | apply Qle_shift_div_r; lra].
  - field. lra.
  - intros Heq. rewrite Heq.
    set (b := np_exp (_beta self * (q self).2)) in *.
    split; field; lra.
Qed.

(** X2.  When both [beta * q[i]] are in the safe range of the float64
    exponential, [get_choice] returns after exactly one uniform draw [u]:
    0 when [u] is below the probability of arm 0 (taken in exact
    arithmetic) and 1 otherwise.  When some [beta * q[i]] is above 710,
    [get_choice] raises ValueError and draws nothing. *)
Theorem AgentQ_get_choice_threshold (self : t) (g : RandomState) :
  (- exp_safe float64 <= _beta self * (q self).1 <= exp_safe float64 ->
   - exp_safe float64 <= _beta self * (q self).2 <= exp_safe float64 ->
   exists u p c,
     random_sample g = (Ok u, advance g) /\
     get_choice_probs self = Some p /\
     get_choice self g = (Ok c, advance g) /\
     (u < p.1 -> c = 0%Z) /\ (p.1 <= u -> c = 1%Z)) /\
  (exp_over float64 < _beta self * (q self).1 \/
   exp_over float64 < _beta self * (q self).2 ->
   get_choice self g = (Raise ValueError, g)).
Proof.
  split.
  2:{ intros Hover. unfold get_choice. by rewrite get_choice_probs_over. }
  intros Hx1 Hx2.
  pose proof (np_exp_pos (_beta self * (q self).1)) as Ha.
  pose proof (np_exp_pos (_beta self * (q self).2)) as Hb.
  destruct (random_sample_range g) as (u & Hu & Hulo & Huhi).
  set (a := np_exp (_beta self * (q self).1)) in *.
  set (b := np_exp (_beta self * (q self).2)) in *.
  exists u, (a / (a + b), b / (a + b)).
  cut (exists c, get_choice self g = (Ok c, advance g) /\
         (u < a / (a + b) -> c = 0%Z) /\ (a / (a + b) <= u -> c = 1%Z)).
  { intros (c & Hc & Hlt & Hge). exists c. split; [done|].
    split; [by apply get_choice_probs_safe|]. done. }
  unfold get_choice.
  rewrite (get_choice_probs_safe self Hx1 Hx2). cbn [fst snd]. fold a b.
  assert (0 < a / (a + b)) as Hp0 by (apply Qlt_shift_div_l; lra).
  assert (0 < b / (a + b)) as Hp1 by (apply Qlt_shift_div_l; lra).
  assert (a / (a + b) + b / (a + b) == 1) as Hsum by (field; lra).
  remember (a / (a + b)) as p0 eqn:Ep0.
  remember (b / (a + b)) as p1 eqn:Ep1.
  clear Ep0 Ep1.
  unfold choice. cbn [Z.leb Z.compare length Z.of_nat Z.eqb
    Pos.of_succ_nat Pos.succ Pos.eqb negb existsb fold_right orb].
  destruct (Qltb_spec p0 0) as [|_]; [lra|].
  destruct (Qltb_spec p1 0) as [|_]; [lra|]. cbn [orb].
  destruct (Qltb_spec atol (Qabs (p0 + (p1 + 0) - 1))) as [Habs|_].
  { exfalso. revert Habs. apply Qle_not_lt. apply Qabs_Qle_condition.
    unfold atol. split; [|]; lra. }
  mrun_obj. change (negb (Z.of_nat 2 =? 2)%Z) with false. cbv iota beta.
  rewrite Hu. eexists. split; [reflexivity|].
  unfold searchsorted_right, cumsum. cbn [cumsum_from map List.last List.filter].
  assert (Qle_bool ((0 + p0 + p1) / (0 + p0 + p1)) u = false) as ->.
  { apply not_true_iff_false. rewrite Qle_bool_iff.
    apply Qlt_not_le.
    assert ((0 + p0 + p1) / (0 + p0 + p1) == 1) as -> by (field; lra). done. }
  assert ((0 + p0) / (0 + p0 + p1) == p0) as Hcdf.
  { assert (0 + p0 + p1 == 1) as -> by lra. field. }
  destruct (Qle_bool ((0 + p0) / (0 + p0 + p1)) u) eqn:Hle; cbn.
  - apply Qle_bool_iff in Hle. rewrite Hcdf in Hle.
    split; [intros Hlt; exfalso; lra|done].
  - split; [done|]. intros Hge. exfalso.
    apply not_true_iff_false in Hle. apply Hle. apply Qle_bool_iff.
    by rewrite Hcdf.
Qed.
End AgentQChoice.

Section AgentQSessions.
Import Vec2 NpRandom AgentQ.
Local Open Scope Q_scope.

(** X3.  [update] indexes [q] as Python does: the choices -1 and -2 update
    the arms 1 and 0, and any choice outside of [-2, 1] raises IndexError
    and leaves the agent as it was. *)
Theorem AgentQ_update_index_edges (choice reward : Z) (self : t) :
  update (-1) reward self = update 1 reward self /\
  update (-2) reward self = update 0 reward self /\
  (~ (-2 <= choice <= 1)%Z -> update choice reward self = (Raise IndexError, self)).
Proof.
  split; [reflexivity|]. split; [reflexivity|].
  intros Hc. unfold update, getitem, index. mrun.
  destruct (Z.leb_spec 0 choice); destruct (Z.ltb_spec choice (Z.of_nat 2));
    destruct (Z.leb_spec (- Z.of_nat 2) choice); destruct (Z.ltb_spec choice 0);
    cbn; try reflexivity; lia.
Qed.

(** X4.  [new_sess] undoes learning: after any sequence of updates with
    choices and rewards in {0, 1}, it puts the agent back in the state the
    constructor made, learning rate and temperature included. *)
Theorem AgentQ_new_sess_resets alpha beta trials :
  Forall valid_trial trials ->
  exists self,
    updates trials (__init__ alpha beta) = (Ok tt, self) /\
    new_sess self = (Ok tt, __init__ alpha beta).
Proof.
  intros Hv.
  destruct (updates_invariant (fun _ => True) trials Hv (__init__ alpha beta))
    as (self & Hrun & Ha & Hb & _); auto.
  exists self. split; [done|].
  unfold new_sess, __init__, set_q. mrun. cbn in Ha, Hb. cbn. by rewrite Ha, Hb.
Qed.

Lemma repeated_update_arm0 alpha reward n :
  forall self,
  _alpha self = alpha ->
  exists self',
    updates (replicate n (0%Z, reward)) self = (Ok tt, self') /\
    (q self').2 = (q self).2 /\
    forall q0 k,
      (q self).1 == inject_Z reward + pow_nat (1 - alpha) k * (q0 - inject_Z reward) ->
      (q self').1 == inject_Z reward + pow_nat (1 - alpha) (k + n) * (q0 - inject_Z reward).
Proof.
  induction n as [|n IH]; intros self Ha.
  - exists self. cbn. repeat (split; [done|]).
    intros q0 k Hk. by rewrite Nat.add_0_r.
  - cbn [replicate updates]. mrun. rewrite update_0.
    destruct (IH (set_q (q_target (_alpha self) (q self).1 reward, (q self).2) self))
      as (self' & Hrun & H2 & Hform); [done|].
    exists self'. rewrite Hrun. repeat (split; [done|]).
    intros q0 k Hk. cbn [q set_q fst] in Hform.
    replace (k + S n)%nat with (S k + n)%nat by lia.
    apply Hform. rewrite Ha. unfold q_target. rewrite Hk. cbn [pow_nat]. ring.
Qed.

Lemma repeated_update_arm1 alpha reward n :
  forall self,
  _alpha self = alpha ->
  exists self',
    updates (replicate n (1%Z, reward)) self = (Ok tt, self') /\
    (q self').1 = (q self).1 /\
    forall q0 k,
      (q self).2 == inject_Z reward + pow_nat (1 - alpha) k * (q0 - inject_Z reward) ->
      (q self').2 == inject_Z reward + pow_nat (1 - alpha) (k + n) * (q0 - inject_Z reward).
Proof.
  induction n as [|n IH]; intros self Ha.
  - exists self. cbn. repeat (split; [done|]).
    intros q0 k Hk. by rewrite Nat.add_0_r.
  - cbn [replicate updates]. mrun. rewrite update_1.
    destruct (IH (set_q ((q self).1, q_target (_alpha self) (q self).2 reward) self))
      as (self' & Hrun & H2 & Hform); [done|].
    exists self'. rewrite Hrun. repeat (split; [done|]).
    intros q0 k Hk. cbn [q set_q snd] in Hform.
    replace (k + S n)%nat with (S k + n)%nat by lia.
    apply Hform. rewrite Ha. unfold q_target. rewrite Hk. cbn [pow_nat]. ring.
Qed.

(** X5.  Learning is an exponential approach: [n] updates of a fresh agent
    that all carry the same choice and the same reward [r] leave
    [r + (1 - alpha)^n * (1/2 - r)] at the chosen arm and 1/2 at the other
    one. *)
Theorem AgentQ_repeated_reward_closed_form alpha beta choice reward n :
  (choice = 0 \/ choice = 1)%Z ->
  exists self x y,
    updates (replicate n (choice, reward)) (__init__ alpha beta) = (Ok tt, self) /\
    getitem (q self) choice = Ok x /\
    getitem (q self) (1 - choice) = Ok y /\
    x == inject_Z reward + pow_nat (1 - alpha) n * ((1 # 2) - inject_Z reward) /\
    y == 1 # 2.
Proof.
  intros [-> | ->].
  - destruct (repeated_update_arm0 alpha reward n (__init__ alpha beta) eq_refl)
      as (self & Hrun & H2 & Hform).
    exists self, (q self).1, (q self).2.
    split; [done|]. split; [reflexivity|]. split; [reflexivity|]. split.
    + apply (Hform (1 # 2) 0%nat). cbn. ring.
    + rewrite H2. cbn. ring.
  - destruct (repeated_update_arm1 alpha reward n (__init__ alpha beta) eq_refl)
      as (self & Hrun & H1 & Hform).
    exists self, (q self).2, (q self).1.
    split; [done|]. split; [reflexivity|]. split; [reflexivity|]. split.
    + apply (Hform (1 # 2) 0%nat). cbn. ring.
    + rewrite H1. cbn. ring.
Qed.
End AgentQSessions.

(** ** The actor-critic agent *)

Section ActorCriticFacts.
Import Vec2 NpRandom AgentLeakyActorCritic.
Local Open Scope Q_scope.
Context `{NpExp}.










(** X7.  A failing [update] is not atomic.  With the choice -1 the actor
    step runs on arm 1, then the read of [theta[1 - choice]], that is
    [theta[2]], raises IndexError: the agent is left with the updated
    preference of arm 1 and its old value estimate.  With the choice 2 the
    first read raises and the agent is unchanged. *)
Theorem ActorCritic_update_not_atomic reward self :
  update (-1) reward self =
    (Raise IndexError,
     set_theta
       ((theta self).1,
        (1 - _alpha_actor_forget self) * (theta self).2
        + _alpha_actor_learn self * (inject_Z reward - v self)
          * (1 - (get_choice_probs self).2)) self) /\
  update 2 reward self = (Raise IndexError, self).
Proof. split; reflexivity. Qed.
End ActorCriticFacts.

(** ** The network agent *)

Section NetworkFacts.
Import Vec2 NpRandom AgentNetwork.
Context {Hid : Type}.

Lemma last_cons_default {A} (l : list A) (x d : A) :
  List.last (x :: l) d = List.last l x.
Proof.
  revert x d. induction l as [|y l IH]; intros x d; [reflexivity|].
  change (List.last (x :: y :: l) d) with (List.last (y :: l) d).
  rewrite !IH. reflexivity.
Qed.

Lemma network_updates_run trials :
  forall self : AgentNetwork.t Hid,
  network_updates trials self =
  (Ok tt,
   {| _initial_state := _initial_state self;
      _model_fun := _model_fun self;
      _xs := List.last (map (fun cr => (inject_Z cr.1, inject_Z cr.2)) trials) (_xs self);
      _state := network_reads (_model_fun self) trials (_state self) |}).
Proof.
  induction trials as [|[c r] trials IH]; intros self.
  - by destruct self.
  - cbn [network_updates]. unfold mbind at 1, M_bind at 1.
    change (update c r self) with
      (Ok tt, set_state (_model_fun self (inject_Z c, inject_Z r) (_state self)).2
                (set_xs (inject_Z c, inject_Z r) self)).
    cbv iota beta. rewrite IH. cbn [set_state set_xs _initial_state _model_fun _xs _state
      network_reads map fst snd]. by rewrite last_cons_default.
Qed.

(** X8.  Updates of a network agent never fail, whatever the choices and
    rewards are.  After any sequence of them the recurrent state is the one
    the network reaches from its initial state by reading the pairs in
    order, and the stored input is the last pair (zeros if there was none).
    [new_sess] then restores the initial state and keeps the stored input,
    so the next choice after a reset is made from the last trial of the
    session before. *)
Theorem AgentNetwork_state_follows_updates (initial_state : Hid)
    (model_fun : vec2 -> Hid -> list Q * Hid) (trials : list (Z * Z)) :
  exists self self' : AgentNetwork.t Hid,
    network_updates trials (__init__ initial_state model_fun) = (Ok tt, self) /\
    _state self = network_reads model_fun trials initial_state /\
    _xs self = List.last (map (fun cr => (inject_Z cr.1, inject_Z cr.2)) trials)
                 (0%Q, 0%Q) /\
    new_sess self = (Ok tt, self') /\
    _state self' = initial_state /\ _xs self' = _xs self.
Proof.
  do 2 eexists. split; [apply network_updates_run|].
  split; [reflexivity|]. split; [reflexivity|].
  split; [reflexivity|]. split; reflexivity.
Qed.

End NetworkFacts.

Section NetworkChoice.
Import Vec2 NpRandom AgentNetwork.
Local Open Scope Q_scope.
Context `{NpExp} `{FloatExp} `{!FloatExpOk} {Hid : Type} (dt : dtype).

Lemma softmax_length (l : list Q) : length (softmax l) = length l.
Proof. unfold softmax. by rewrite !length_map. Qed.

(** X9.  When the network gives two output scores in the safe range of the
    exponential of their float type ([-80, 80] for float32), [get_choice]
    returns 0 or 1 after one draw.  With any other number of scores, or
    with a score whose exponential overflows (above 89 for float32),
    [np.random.choice] refuses the probabilities: [get_choice] raises
    ValueError before any draw. *)
Theorem AgentNetwork_get_choice_needs_two_scores (self : AgentNetwork.t Hid)
    (g : RandomState) :
  let scores := (_model_fun self (_xs self) (_state self)).1 in
  (length scores = 2%nat ->
   Forall (fun x => - exp_safe dt <= x <= exp_safe dt) scores ->
   exists c, get_choice dt self g = (Ok c, advance g) /\ (c = 0 \/ c = 1)%Z) /\
  (length scores <> 2%nat -> get_choice dt self g = (Raise ValueError, g)) /\
  (Exists (fun x => exp_over dt < x) scores ->
   get_choice dt self g = (Raise ValueError, g)).
Proof.
  intros scores. split; [|split].
  - intros Hlen Hb. unfold get_choice, get_choice_probs. fold scores.
    rewrite softmax_finite_safe; [| |lia|done].
    2:{ intros Hnil. by rewrite Hnil in Hlen. }
    cbn [orb].
    destruct scores as [|a [|b [|]]]; try done.
    pose proof (np_exp_pos a). pose proof (np_exp_pos b).
    unfold softmax. cbn [map fold_right].
    apply choice_2_valid.
    + apply Qle_shift_div_l; lra.
    + apply Qle_shift_div_l; lra.
    + field. lra.
  - intros Hlen. unfold get_choice, get_choice_probs. fold scores.
    destruct (softmax_finite dt scores || (length scores =? 0)%nat); [|reflexivity].
    unfold choice. rewrite softmax_length. cbn [Z.leb Z.compare].
    destruct (Z.eqb_spec (Z.of_nat (length scores)) 2) as [|_]; [lia|].
    reflexivity.
  - intros Hover. unfold get_choice, get_choice_probs. fold scores.
    rewrite softmax_finite_over by done.
    destruct scores; [by apply List.Exists_nil in Hover|]. reflexivity.
Qed.
End NetworkChoice.

(** ** The flipping environment with any flip probability *)

Section FlipsMore.
Import Vec2 NpRandom EnvironmentBanditsFlips.
Local Open Scope Q_scope.

(** A Bernoulli draw with probability 0 is 0. *)
Lemma binomial_1_never g : binomial_1 0 g = (Ok 0%Z, advance g).
Proof.
  unfold binomial_1. simpl.
  destruct (random_sample_range g) as (u & Hu & _ & Hlt).
  mrun_obj. rewrite Hu.
  by destruct (Qltb_spec (1 - 0) u) as [|_]; [lra|].
Qed.

Lemma binomial_1_invalid p g :
  p < 0 \/ 1 < p -> binomial_1 p g = (Raise ValueError, g).
Proof.
  intros Hp. unfold binomial_1.
  destruct (Qltb_spec p 0) as [|Hge]; [reflexivity|].
  destruct (Qltb_spec 1 p) as [|Hle]; [reflexivity|]. lra.
Qed.

(** X10.  The constructor checks nothing: it returns for any three numbers,
    probabilities or not, after one draw, with its arguments stored, a
    block that is 0 or 1 and the probabilities [new_block] assigns to that
    block. *)
Theorem Flips_init_accepts_anything bfp high low g :
  exists e,
    __init__ bfp high low g = (Ok e, advance g) /\
    consistent bfp high low e.
Proof.
  destruct (binomial_1_valid (1 # 2) g) as (b & Hrun & Hb).
  { unfold in_unit. lra. }
  assert (exists e, __init__ bfp high low g = (Ok e, advance g)) as [e He].
  { unfold __init__. mrun_obj. rewrite Hrun. cbn. by eexists. }
  exists e. split; [done|]. by eapply init_consistent.
Qed.

Lemma getitem_consistent bfp high low e choice p :
  consistent bfp high low e ->
  getitem (reward_probabilities e) choice = Ok p -> p = high \/ p = low.
Proof.
  intros (_ & _ & _ & Hblock). unfold getitem.
  destruct (index 2 choice) as [[|k]|]; [| |done]; cbn; intros [= <-];
    destruct Hblock as [[_ ->] | [_ ->]]; auto.
Qed.

(** One trial, for any flip probability in [0, 1]. *)
Lemma next_trial_general bfp high low e choice g :
  in_unit bfp -> in_unit high -> in_unit low ->
  consistent bfp high low e -> (choice = 0 \/ choice = 1)%Z ->
  exists reward e',
    next_trial choice (e, g) = (Ok reward, (e', advance (advance g))) /\
    (reward = 0 \/ reward = 1)%Z /\
    (e' = e \/ e' = (new_block e).2) /\
    consistent bfp high low e'.
Proof.
  intros Hp Hh Hl Hcons Hc.
  pose proof Hcons as (Hbfp & Hhigh & Hlow & Hblock).
  assert (exists p, getitem (reward_probabilities e) choice = Ok p /\ in_unit p)
    as (p & Hpr & Hpu).
  { destruct Hblock as [[_ ->] | [_ ->]]; destruct Hc as [-> | ->];
      eexists; (split; [reflexivity|done]). }
  destruct (binomial_1_valid p g Hpu) as (reward & Hr & Hrv).
  destruct (binomial_1_valid bfp (advance g) Hp) as (flip & Hf & Hfv).
  unfold next_trial. mrun_obj. rewrite Hpr, Hr, Hbfp, Hf.
  destruct Hfv as [-> | ->]; cbn.
  - exists reward, e. destruct e. cbn. split; [reflexivity|]. split; [done|].
    split; [by left|done].
  - exists reward, (new_block e).2. split; [by destruct e|]. split; [done|].
    split; [by right|].
    apply new_block_consistent; try done.
    destruct Hblock as [[-> _] | [-> _]]; auto.
Qed.

Lemma reachable_consistent_general bfp high low e :
  in_unit bfp -> in_unit high -> in_unit low ->
  reachable bfp high low e -> consistent bfp high low e.
Proof.
  intros Hp Hh Hl.
  induction 1 as [g e g' Hinit | e c g r e' g' _ IH Hstep].
  - by eapply init_consistent.
  - pose proof IH as (Hbfp & Hhigh & Hlow & Hblock).
    unfold next_trial in Hstep. revert Hstep. mrun_obj.
    destruct (getitem (reward_probabilities e) c) as [p|] eqn:Hpr; [|done].
    assert (in_unit p) as Hpu.
    { destruct (getitem_consistent _ _ _ _ _ _ IH Hpr) as [-> | ->]; done. }
    destruct (binomial_1_valid p g Hpu) as (reward & Hr & _).
    destruct (binomial_1_valid bfp (advance g) Hp) as (flip & Hf & Hfv).
    rewrite Hr, Hbfp, Hf.
    destruct Hfv as [-> | ->]; cbn; intros [= _ <- _].
    + by destruct e.
    + apply new_block_consistent; try done.
      destruct Hblock as [[-> _] | [-> _]]; auto.
Qed.

(** X11.  With a flip probability and two reward probabilities in [0, 1],
    every environment that the constructor and any calls of [next_trial]
    can produce has the pair (high, low) in block 1 and (low, high) in
    block 0, never anything else; from it, [next_trial] with a choice in
    {0, 1} returns a reward that is 0 or 1 after two draws, and the pair
    either stays or is swapped. *)
Theorem Flips_probabilities_are_high_and_low bfp high low e choice g :
  in_unit bfp -> in_unit high -> in_unit low ->
  reachable bfp high low e ->
  (choice = 0 \/ choice = 1)%Z ->
  (_block e = 1%Z /\ reward_probabilities e = (high, low) \/
   _block e = 0%Z /\ reward_probabilities e = (low, high)) /\
  exists reward e',
    next_trial choice (e, g) = (Ok reward, (e', advance (advance g))) /\
    (reward = 0 \/ reward = 1)%Z /\
    (reward_probabilities e' = reward_probabilities e \/
     reward_probabilities e' = swap (reward_probabilities e)).
Proof.
  intros Hp Hh Hl Hr Hc.
  pose proof (reachable_consistent_general _ _ _ _ Hp Hh Hl Hr) as Hcons.
  split; [apply Hcons|].
  destruct (next_trial_general bfp high low e choice g Hp Hh Hl Hcons Hc)
    as (reward & e' & Hrun & Hrv & He' & Hcons').
  exists reward, e'. split; [done|]. split; [done|].
  destruct He' as [-> | ->]; [by left|right].
  destruct Hcons as (_ & Hhigh & Hlow & Hblock).
  unfold new_block, swap. mrun_obj. cbn. rewrite Hhigh, Hlow.
  destruct Hblock as [[-> ->] | [-> ->]]; reflexivity.
Qed.

(** X12.  With a flip probability of 0 the blocks never change: any
    sequence of trials with choices in {0, 1} returns rewards that are 0 or
    1 and leaves the environment exactly as it was. *)
Theorem Flips_never_flip_at_zero high low e choices g :
  in_unit high -> in_unit low ->
  reachable 0 high low e ->
  Forall (fun c => c = 0 \/ c = 1)%Z choices ->
  exists rewards g',
    next_trials choices (e, g) = (Ok rewards, (e, g')) /\
    length rewards = length choices /\
    Forall (fun r => r = 0 \/ r = 1)%Z rewards.
Proof.
  intros Hh Hl Hr Hcs.
  assert (in_unit 0) as H0 by (unfold in_unit; lra).
  pose proof (reachable_consistent_general _ _ _ _ H0 Hh Hl Hr) as Hcons.
  clear Hr. revert g.
  induction Hcs as [|c choices Hc _ IH]; intros g.
  - exists [], g. done.
  - pose proof Hcons as (Hbfp & _ & _ & Hblock).
    assert (exists p, getitem (reward_probabilities e) c = Ok p /\ in_unit p)
      as (p & Hpr & Hpu).
    { destruct Hblock as [[_ ->] | [_ ->]]; destruct Hc as [-> | ->];
        eexists; (split; [reflexivity|done]). }
    destruct (binomial_1_valid p g Hpu) as (reward & Hrw & Hrv).
    assert (next_trial c (e, g) = (Ok reward, (e, advance (advance g)))) as Hrun.
    { unfold next_trial. mrun_obj. rewrite Hpr, Hrw, Hbfp, binomial_1_never.
      cbn. by destruct e. }
    destruct (IH (advance (advance g))) as (rewards & g' & Hrest & Hlen & Hall).
    exists (reward :: rewards), g'.
    cbn [next_trials]. unfold mbind at 1, M_bind at 1. rewrite Hrun.
    unfold mbind, M_bind. rewrite Hrest.
    split; [reflexivity|]. split; [simpl; lia|]. by apply List.Forall_cons.
Qed.

(** X13.  What [next_trial] does on bad values, in any environment.  A
    choice outside of [-2, 1] raises IndexError and a chosen arm whose
    probability is outside of [0, 1] raises ValueError, both before any
    draw and with the environment unchanged.  A flip probability outside of
    [0, 1], which the constructor accepts, raises ValueError at the flip
    draw only: the reward draw has been read by then. *)
Theorem Flips_next_trial_failures e choice g :
  (~ (-2 <= choice <= 1)%Z ->
   next_trial choice (e, g) = (Raise IndexError, (e, g))) /\
  (forall p, getitem (reward_probabilities e) choice = Ok p ->
   (p < 0 \/ 1 < p -> next_trial choice (e, g) = (Raise ValueError, (e, g))) /\
   (in_unit p -> _block_flip_prob e < 0 \/ 1 < _block_flip_prob e ->
    next_trial choice (e, g) = (Raise ValueError, (e, advance g)))).
Proof.
  split.
  - intros Hc. unfold next_trial, getitem, index. mrun_obj.
    destruct (Z.leb_spec 0 choice); destruct (Z.ltb_spec choice (Z.of_nat 2));
      destruct (Z.leb_spec (- Z.of_nat 2) choice); destruct (Z.ltb_spec choice 0);
      cbn; try reflexivity; lia.
  - intros p Hp. split.
    + intros Hbad. unfold next_trial. mrun_obj.
      rewrite Hp, (binomial_1_invalid p g Hbad). by destruct e.
    + intros Hpu Hbad. unfold next_trial. mrun_obj. rewrite Hp.
      destruct (binomial_1_valid p g Hpu) as (reward & Hr & _). rewrite Hr.
      rewrite (binomial_1_invalid _ (advance g) Hbad). by destruct e.
Qed.
End FlipsMore.

(** ** The drifting environment: size of a move, no drift *)

Section DriftMore.
Import Vec2 NpRandom EnvironmentBanditsDrift.
Local Open Scope Q_scope.

(** Clamping a moved probability to [0, 1] never moves it further than the
    move itself. *)
Lemma clamp_bound (p d : Q) :
  in_unit p ->
  Qabs ((if Qltb 1 (if Qltb (p + d) 0 then 0 else p + d) then 1
         else (if Qltb (p + d) 0 then 0 else p + d)) - p) <= Qabs d.
Proof.
  intros [Hlo Hhi].
  pose proof (Qle_Qabs d) as Hd1.
  pose proof (Qle_Qabs (- d)) as Hd2. rewrite Qabs_opp in Hd2.
  apply Qabs_Qle_condition.
  destruct (Qltb_spec (p + d) 0) as [Hx|Hx].
  - destruct (Qltb_spec 1 0) as [|_]; [lra|]. split; lra.
  - destruct (Qltb_spec 1 (p + d)) as [Hy|Hy]; split; lra.
Qed.

Lemma step_run e g choice p :
  0 <= _sigma e ->
  getitem (reward_probs e) choice = Ok p ->
  (choice = 0 \/ choice = 1)%Z ->
  step choice (e, g) =
    (Ok (Z.b2z (Qltb (Qmake (bits g (pos g) mod Z.pos two53) two53) p)),
     (set_reward_probs
        (np_minimum
           (np_maximum
              (add (reward_probs e)
                 (0 + _sigma e * gauss g (S (pos g)),
                  0 + _sigma e * gauss g (S (S (pos g)))))
              (0, 0))
           (1, 1)) e,
      advance (advance (advance g)))).
Proof.
  intros Hs Hp Hc.
  unfold step, normal_2, random_sample, standard_normal.
  destruct Hc as [-> | ->]; mrun_obj; simpl;
    (destruct (Qltb_spec (_sigma e) 0) as [|_]; [lra|]); simpl;
    cbn in Hp; injection Hp as <-; reflexivity.
Qed.

Lemma step_moves e g choice :
  0 <= _sigma e -> probs_in_unit e -> (choice = 0 \/ choice = 1)%Z ->
  exists u p reward e',
    random_sample g = (Ok u, advance g) /\
    getitem (reward_probs e) choice = Ok p /\
    step choice (e, g) = (Ok reward, (e', advance (advance (advance g)))) /\
    (u < p -> reward = 1%Z) /\ (p <= u -> reward = 0%Z) /\
    _sigma e' = _sigma e /\
    Qabs ((reward_probs e').1 - (reward_probs e).1)
      <= _sigma e * Qabs (gauss g (S (pos g))) /\
    Qabs ((reward_probs e').2 - (reward_probs e).2)
      <= _sigma e * Qabs (gauss g (S (S (pos g)))).
Proof.
  intros Hs [H1 H2] Hc.
  assert (exists p, getitem (reward_probs e) choice = Ok p) as [p Hp].
  { destruct Hc as [-> | ->]; eexists; reflexivity. }
  exists (Qmake (bits g (pos g) mod Z.pos two53) two53), p.
  do 2 eexists. split; [reflexivity|]. split; [exact Hp|].
  split; [by apply step_run|].
  split; [|split; [|split; [reflexivity|]]].
  - intros Hlt. by destruct (Qltb_spec (bits g (pos g) mod Z.pos two53 # two53) p).
  - intros Hle.
    destruct (Qltb_spec (bits g (pos g) mod Z.pos two53 # two53) p); [lra|done].
  - assert (forall z, Qabs (0 + _sigma e * z) == _sigma e * Qabs z) as Habs.
    { intros z. rewrite Qplus_0_l, Qabs_Qmult, (Qabs_pos (_sigma e)) by done.
      reflexivity. }
    split.
    + rewrite <- Habs. apply (clamp_bound _ _ H1).
    + rewrite <- Habs. apply (clamp_bound _ _ H2).
Qed.

Lemma step_stationary e g choice :
  _sigma e == 0 -> probs_in_unit e -> (choice = 0 \/ choice = 1)%Z ->
  exists reward e',
    step choice (e, g) = (Ok reward, (e', advance (advance (advance g)))) /\
    (reward = 0 \/ reward = 1)%Z /\
    _sigma e' = _sigma e /\
    (reward_probs e').1 == (reward_probs e).1 /\
    (reward_probs e').2 == (reward_probs e).2.
Proof.
  intros Hs Hp Hc.
  destruct (step_moves e g choice) as
    (u & p & reward & e' & _ & _ & Hrun & Hr1 & Hr0 & Hsig & B1 & B2);
    [lra|done|done|].
  exists reward, e'. split; [done|]. split.
  { destruct (Qlt_le_dec u p); auto. }
  split; [done|].
  rewrite Hs, Qmult_0_l in B1. rewrite Hs, Qmult_0_l in B2.
  apply Qabs_Qle_condition in B1. apply Qabs_Qle_condition in B2.
  split; lra.
Qed.

(** X14.  One trial of the drifting task with probabilities in [0, 1]:
    one uniform draw [u] decides the reward against the probability [p] the
    chosen arm has before the call (1 when [u < p], 0 otherwise), two
    Gaussian draws move the two probabilities, and after the clamping each
    probability is within [sigma * |z|] of where it was, [z] being its
    Gaussian draw. *)
Theorem Drift_step_moves_at_most_noise e g choice :
  0 <= _sigma e -> probs_in_unit e -> (choice = 0 \/ choice = 1)%Z ->
  exists u p reward e',
    random_sample g = (Ok u, advance g) /\
    getitem (reward_probs e) choice = Ok p /\
    step choice (e, g) = (Ok reward, (e', advance (advance (advance g)))) /\
    (u < p -> reward = 1%Z) /\ (p <= u -> reward = 0%Z) /\
    _sigma e' = _sigma e /\
    Qabs ((reward_probs e').1 - (reward_probs e).1)
      <= _sigma e * Qabs (gauss g (S (pos g))) /\
    Qabs ((reward_probs e').2 - (reward_probs e).2)
      <= _sigma e * Qabs (gauss g (S (S (pos g)))).
Proof. apply step_moves. Qed.

(** X15.  With [sigma = 0] the task does not drift: over any sequence of
    trials with choices in {0, 1}, every trial returns a reward that is 0 or
    1 and reads three draws, and the two reward probabilities keep their
    values. *)
Theorem Drift_sigma_zero_is_stationary e choices g :
  _sigma e == 0 -> probs_in_unit e ->
  Forall (fun c => c = 0 \/ c = 1)%Z choices ->
  exists rewards e' g',
    steps choices (e, g) = (Ok rewards, (e', g')) /\
    length rewards = length choices /\
    Forall (fun r => r = 0 \/ r = 1)%Z rewards /\
    pos g' = (pos g + 3 * length choices)%nat /\
    (reward_probs e').1 == (reward_probs e).1 /\
    (reward_probs e').2 == (reward_probs e).2.
Proof.
  intros Hs Hp Hcs. revert e g Hs Hp.
  induction Hcs as [|c choices Hc _ IH]; intros e g Hs Hp.
  - exists [], e, g. split; [reflexivity|]. split; [reflexivity|].
    split; [apply List.Forall_nil|]. split; [simpl; lia|]. split; reflexivity.
  - destruct (step_stationary e g c Hs Hp Hc)
      as (r & e1 & Hrun & Hr & Hsig & E1 & E2).
    assert (probs_in_unit e1) as Hp1.
    { destruct Hp as [[? ?] [? ?]]. unfold probs_in_unit, in_unit.
      rewrite E1, E2. done. }
    destruct (IH e1 (advance (advance (advance g)))) as
      (rewards & e' & g' & Hrest & Hlen & Hall & Hpos & F1 & F2);
      [by rewrite Hsig|done|].
    exists (r :: rewards), e', g'.
    cbn [steps]. unfold mbind at 1, M_bind at 1. rewrite Hrun.
    unfold mbind, M_bind. rewrite Hrest.
    split; [reflexivity|]. split; [simpl; lia|].
    split; [by apply List.Forall_cons|].
    split; [rewrite Hpos; simpl; lia|].
    split; [by rewrite F1|by rewrite F2].
Qed.
End DriftMore.

(** ** The experiment runner: no trial, and replaying a session *)

Section RunEdges.
Import NpRandom.
Context {St : Type} `{Agent St}.

(** X16.  With [n_trials = 0] the runner returns a session of empty arrays
    and touches nothing, whatever the agent and the environment (a flipping
    one included); with a negative [n_trials] it raises ValueError, at the
    first [np.zeros], and touches nothing either. *)
Theorem run_experiment_without_trials (w : World) :
  run_experiment 0 w
  = (Ok {| choices := []; rewards := []; reward_probs := []; n_trials := 0 |}, w) /\
  forall n, n < 0 -> run_experiment n w = (Raise ValueError, w).
Proof.
  split; [reflexivity|].
  intros n Hn. unfold run_experiment. by destruct (Z.ltb_spec n 0); [|lia].
Qed.
End RunEdges.

Section RunAgentQ.
Import Vec2 NpRandom.
Context `{NpExp} `{FloatExp} `{!FloatExpOk}.

Lemma run_trial_AgentQ (a : AgentQ.t) e g :
  AgentQ.in_range a ->
  (0 <= EnvironmentBanditsDrift._sigma e)%Q ->
  exists c r a' e',
    AgentQ.valid_trial (c, r) /\
    AgentQ.in_range a' /\
    (0 <= EnvironmentBanditsDrift._sigma e')%Q /\
    AgentQ.update c r a = (Ok tt, a') /\
    forall trial logs,
      run_trial trial logs (a, Drift e, g)
      = (Ok (<[trial := inject_Z c]> logs.1.1,
             <[trial := inject_Z r]> logs.1.2,
             <[trial := EnvironmentBanditsDrift.reward_probs e]> logs.2),
         (a', Drift e', advance (advance (advance (advance g))))).
Proof.
  intros Ha Hs.
  destruct (AgentQ_get_choice_in_range a g Ha) as (c & Hchoice & Hc).
  assert (exists p, getitem (EnvironmentBanditsDrift.reward_probs e) c = Ok p)
    as [p Hp].
  { destruct Hc as [-> | ->]; eexists; reflexivity. }
  pose proof (step_run e (advance g) c p Hs Hp Hc) as Hstep.
  set (r := Z.b2z _) in Hstep.
  set (e' := EnvironmentBanditsDrift.set_reward_probs _ _) in Hstep.
  assert (r = 0 \/ r = 1) as Hr by (subst r; destruct (Qltb _ _); auto).
  destruct (AgentQ_update_in_range c r a Ha Hc Hr) as (a' & Hupd & Ha').
  exists c, r, a', e'. split; [done|]. split; [done|]. split; [done|].
  split; [done|].
  intros trial [[cs rs] ps]. unfold run_trial. mrun_world.
  change (agent_get_choice a g) with (AgentQ.get_choice a g).
  rewrite Hchoice. mrun_world. rewrite Hstep. mrun_world.
  change (agent_update c r a) with (AgentQ.update c r a).
  rewrite Hupd. reflexivity.
Qed.

Lemma updates_cons c r trials a a' :
  AgentQ.update c r a = (Ok tt, a') ->
  AgentQ.updates ((c, r) :: trials) a = AgentQ.updates trials a'.
Proof. intros Hupd. cbn [AgentQ.updates]. unfold mbind, M_bind. by rewrite Hupd. Qed.

Lemma take_S_insert {A} (l : list A) i x :
  (i < length l)%nat -> take (S i) (<[i := x]> l) = take i l ++ [x].
Proof.
  intros Hi. erewrite take_S_r by (by apply list_lookup_insert_eq).
  by rewrite take_insert_ge by lia.
Qed.

Lemma run_trials_AgentQ n :
  forall i (logs : list Q * list Q * list vec2) (a : AgentQ.t) e g,
  AgentQ.in_range a ->
  (0 <= EnvironmentBanditsDrift._sigma e)%Q ->
  (i + n <= length logs.1.1)%nat -> (i + n <= length logs.1.2)%nat ->
  exists logs' a' e' g' trials,
    run_trials (seq i n) logs (a, Drift e, g) = (Ok logs', (a', Drift e', g')) /\
    length trials = n /\ Forall AgentQ.valid_trial trials /\
    AgentQ.updates trials a = (Ok tt, a') /\
    AgentQ.in_range a' /\
    pos g' = (pos g + 4 * n)%nat /\
    logs'.1.1 = take i logs.1.1 ++ map trial_choice trials ++ drop (i + n) logs.1.1 /\
    logs'.1.2 = take i logs.1.2 ++ map trial_reward trials ++ drop (i + n) logs.1.2.
Proof.
  induction n as [|n IH]; intros i logs a e g Ha Hs L1 L2.
  - exists logs, a, e, g, []. cbn [seq run_trials map app].
    repeat split; try done; try lia; try apply Ha;
      by rewrite (Nat.add_0_r i), take_drop.
  - destruct (run_trial_AgentQ a e g Ha Hs)
      as (c & r & a1 & e1 & Hv & Ha1 & Hs1 & Hupd & Hrun).
    destruct (IH (S i) (<[i := inject_Z c]> logs.1.1, <[i := inject_Z r]> logs.1.2,
                       <[i := EnvironmentBanditsDrift.reward_probs e]> logs.2)
                a1 e1 (advance (advance (advance (advance g)))) Ha1 Hs1)
      as (logs' & a' & e' & g' & trials & Hrest & Hlen & Hall & Hupds & Ha' & Hpos
          & E1 & E2);
      cbn [fst snd]; rewrite ?length_insert; try lia.
    cbn [fst snd] in E1, E2.
    exists logs', a', e', g', ((c, r) :: trials).
    split.
    { cbn [seq run_trials]. unfold mbind, M_bind. by rewrite Hrun. }
    split; [simpl; lia|]. split; [by apply List.Forall_cons|].
    split; [by rewrite (updates_cons _ _ _ _ _ Hupd)|].
    split; [done|].
    split; [rewrite Hpos; simpl; lia|].
    rewrite E1, E2, !take_S_insert by lia.
    rewrite !drop_insert_lt by lia.
    replace (S i + n)%nat with (i + S n)%nat by lia.
    cbn [map]. rewrite <- !app_assoc. done.
Qed.

(** X17.  A run of a Q-learning agent in range (alpha and both entries of
    [q] in [0, 1], beta in [-700, 700], so that no exponential overflows)
    on a drifting task can be replayed from its session: the [choices] and
    [rewards] arrays are [n_trials] pairs of 0s and 1s, the agent the run
    leaves is the one that [update] makes of the initial agent on these
    pairs in order, it is in range again, and the run has read four draws
    per trial. *)
Theorem run_experiment_AgentQ_replay (a : AgentQ.t) e g (n : Z) :
  AgentQ.in_range a ->
  (0 <= EnvironmentBanditsDrift._sigma e)%Q -> 0 <= n ->
  exists session a' e' g' trials,
    run_experiment n (a, Drift e, g) = (Ok session, (a', Drift e', g')) /\
    length trials = Z.to_nat n /\
    Forall AgentQ.valid_trial trials /\
    choices session = map trial_choice trials /\
    rewards session = map trial_reward trials /\
    AgentQ.updates trials a = (Ok tt, a') /\
    AgentQ.in_range a' /\
    pos g' = (pos g + 4 * Z.to_nat n)%nat.
Proof.
  intros Ha Hs Hn.
  destruct (run_trials_AgentQ (Z.to_nat n) 0
              (replicate (Z.to_nat n) 0%Q, replicate (Z.to_nat n) 0%Q,
               replicate (Z.to_nat n) (0%Q, 0%Q)) a e g Ha Hs)
    as (logs & a' & e' & g' & trials & Hrun & Hlen & Hall & Hupds & Ha' & Hpos
        & E1 & E2);
    cbn [fst snd]; rewrite ?length_replicate; try lia.
  cbn [fst snd] in E1, E2.
  rewrite take_0, drop_ge, app_nil_r in E1 by (rewrite length_replicate; lia).
  rewrite take_0, drop_ge, app_nil_r in E2 by (rewrite length_replicate; lia).
  exists {| choices := logs.1.1; rewards := logs.1.2;
            n_trials := n; reward_probs := logs.2 |}, a', e', g', trials.
  split.
  { unfold run_experiment. destruct (Z.ltb_spec n 0); [lia|].
    unfold mbind, M_bind. by rewrite Hrun. }
  done.
Qed.
End RunAgentQ.

(** ** The batched dataset: the cursor, the default batch size, an epoch *)

Section DatasetMore.
Import Np.
Context {A : Type}.
Implicit Types (a xs ys : ndarray A) (ds : DatasetRNN.t A).

(** X20.  A call of [next] changes nothing of the dataset but its cursor,
    whatever state the dataset is in; it fails exactly when the batch would
    end past the dataset size, then with AssertionError and with the cursor
    where it was. *)
Theorem next_moves_only_the_cursor ds :
  exists r ds',
    DatasetRNN.__next__ ds = (r, ds') /\
    ds' = DatasetRNN.set_idx (DatasetRNN._idx ds') ds /\
    (is_Ok r <->
     DatasetRNN._idx ds + DatasetRNN._batch_size ds <= DatasetRNN._dataset_size ds) /\
    (forall err, r = Raise err -> err = AssertionError /\ ds' = ds).
Proof.
  unfold DatasetRNN.__next__. mrun.
  destruct (Z.leb_spec (DatasetRNN._idx ds + DatasetRNN._batch_size ds)
              (DatasetRNN._dataset_size ds)) as [Hle|Hgt].
  - destruct (Z.eqb_spec (DatasetRNN._idx ds + DatasetRNN._batch_size ds)
                (DatasetRNN._dataset_size ds));
      do 2 eexists; (split; [reflexivity|]); (split; [reflexivity|]);
      (split; [done|]); intros err Herr; discriminate.
  - do 2 eexists. split; [reflexivity|]. split; [by destruct ds|].
    split; [simpl; split; [done|lia]|]. by intros err [= <-].
Qed.

(** X21.  Without a batch size the dataset is served whole: with at least
    one episode and shapes that agree, the constructor makes one batch of
    all episodes, and a call of [next] returns all episodes of [xs] and of
    [ys] and leaves the dataset as it was, so every later call does the
    same. *)
Theorem default_batch_size_serves_all xs ys :
  shape0 xs = shape0 ys -> shape1 xs = shape1 ys -> (0 < shape1 xs)%nat ->
  exists ds x y,
    DatasetRNN.__init__ xs ys None = Ok ds /\
    DatasetRNN.n_batches ds = 1 /\
    DatasetRNN.__next__ ds = (Ok (x, y), ds) /\
    DatasetRNN.is_episodes xs 0 (shape1 xs) x /\
    DatasetRNN.is_episodes ys 0 (shape1 xs) y.
Proof.
  intros H0 H1 HE.
  set (E := Z.of_nat (shape1 xs)).
  exists {| DatasetRNN._xs := xs; DatasetRNN._ys := ys; DatasetRNN._batch_size := E;
            DatasetRNN._dataset_size := E; DatasetRNN._idx := 0;
            DatasetRNN.n_batches := 1 |}.
  exists (slice_axis1 xs (Z.of_nat 0) (Z.of_nat 0 + Z.of_nat (shape1 xs))),
         (slice_axis1 ys (Z.of_nat 0) (Z.of_nat 0 + Z.of_nat (shape1 xs))).
  split; [|split; [reflexivity|split; [|split]]].
  - unfold DatasetRNN.__init__, mod_, floordiv. cbn [DatasetRNN.batch_size_of].
    rewrite H0, H1, !Nat.eqb_refl. cbn [negb]. rewrite <- H1. fold E.
    destruct (Z.eqb_spec E 0) as [|_]; [lia|]. cbn.
    rewrite Z.mod_same, Z.div_same by lia. reflexivity.
  - rewrite (next_in_range _ 0 (shape1 xs)) by (cbn; lia).
    cbn [DatasetRNN._dataset_size DatasetRNN._xs DatasetRNN._ys].
    change (Z.of_nat 0 + Z.of_nat (shape1 xs)) with E. by rewrite Z.eqb_refl.
  - apply (slice_axis1_episodes xs 0 (shape1 xs)). lia.
  - apply (slice_axis1_episodes ys 0 (shape1 xs)). lia.
Qed.

(** X22.  One epoch is a round trip: with at least one episode and a
    positive batch size [B], the dataset has [n_batches * B] episodes, and
    [n_batches] calls of [next] on the constructed dataset return the
    episodes [k * B, k * B + B) for [k = 0, ..., n_batches - 1], in order,
    and leave the dataset in the state the constructor made. *)
Theorem epoch_is_a_round_trip xs ys batch_size ds :
  DatasetRNN.__init__ xs ys batch_size = Ok ds ->
  0 < DatasetRNN._batch_size ds ->
  (0 < shape1 xs)%nat ->
  let B := Z.to_nat (DatasetRNN._batch_size ds) in
  let nb := Z.to_nat (DatasetRNN.n_batches ds) in
  (nb * B)%nat = shape1 xs /\
  exists batches,
    DatasetRNN.next_n nb ds = (Ok batches, ds) /\
    length batches = nb /\
    forall k, (k < nb)%nat -> exists x y,
      batches !! k = Some (x, y) /\
      DatasetRNN.is_episodes xs (k * B) B x /\
      DatasetRNN.is_episodes ys (k * B) B y.
Proof.
  intros Hinit HB HE B nb.
  destruct (init_Ok_inv _ _ _ _ Hinit) as (HB0 & _ & Hys & Hmod & Hds).
  set (Bz := DatasetRNN.batch_size_of xs batch_size) in *.
  assert (HBz : Bz = Z.of_nat B) by (subst B; rewrite Hds in *; simpl in *; lia).
  assert (HBpos : (0 < B)%nat) by (rewrite Hds in HB; simpl in HB; lia).
  assert (Hnb : nb = (shape1 xs / B)%nat).
  { subst nb. rewrite Hds. simpl. rewrite HBz, <- Nat2Z.inj_div. lia. }
  assert (HEq : shape1 xs = (nb * B)%nat).
  { rewrite Hnb. rewrite HBz in Hmod. rewrite <- Nat2Z.inj_mod in Hmod.
    pose proof (Nat.div_mod_eq (shape1 xs) B). nia. }
  assert (Hnbpos : (0 < nb)%nat) by nia.
  split; [done|].
  destruct (next_n_from ds nb B Hnbpos HBpos) with (n := nb) (j := 0%nat)
    as (batches & Hrun & Hlen & Hnth).
  { rewrite Hds. simpl. done. }
  { rewrite Hds. simpl. by rewrite HEq. }
  assert (Hds0 : DatasetRNN.set_idx (Z.of_nat (0 mod nb * B)) ds = ds).
  { rewrite Nat.Div0.mod_0_l. rewrite Hds. reflexivity. }
  rewrite Hds0 in Hrun.
  replace ((0 + nb) mod nb * B)%nat with 0%nat in Hrun
    by (rewrite Nat.add_0_l, Nat.Div0.mod_same; lia).
  assert (DatasetRNN.set_idx (Z.of_nat 0) ds = ds) as Hback by (rewrite Hds; reflexivity).
  rewrite Hback in Hrun. simpl in Hnth.
  exists batches. split; [done|]. split; [done|].
  intros k Hk. do 2 eexists. split; [by apply Hnth|].
  rewrite Nat.mod_small by done.
  rewrite Hds. simpl. split.
  - apply slice_axis1_episodes. nia.
  - apply slice_axis1_episodes. rewrite <- Hys. nia.
Qed.
End DatasetMore.

(** ** NaNs in nested parameters *)

Section PytreeFacts.
Import Pytree.

Lemma pytree_nested_ind (P : pytree -> Prop)
    (HArray : forall a, P (Array a))
    (HDict : forall items, Forall (fun kv => P kv.2) items -> P (Dict items)) :
  forall d, P d.
Proof.
  fix IH 1. intros [a|items]; [apply HArray|].
  apply HDict. induction items as [|[k v] items IHitems].
  - apply List.Forall_nil.
  - apply List.Forall_cons; [apply IH|apply IHitems].
Qed.

Lemma existsb_isnan a : existsb isnan a = true <-> In NaN a.
Proof.
  rewrite existsb_exists. split.
  - intros ([|x] & Hin & Hx); [done|discriminate].
  - intros Hin. by exists NaN.
Qed.

(** X23.  [nan_in_dict] answers True exactly when some array of the nested
    dict, at any depth and under any keys, has a NaN entry; on an empty
    dict it answers False. *)
Theorem nan_in_dict_finds_any_nan (d : pytree) :
  (nan_in_dict d = true <-> In NaN (entries d)) /\
  nan_in_dict (Dict []) = false.
Proof.
  split; [|reflexivity].
  induction d as [a|items IH] using pytree_nested_ind.
  - apply existsb_isnan.
  - cbn [nan_in_dict entries]. rewrite existsb_exists, in_flat_map.
    rewrite List.Forall_forall in IH.
    split; intros ([k v] & Hin & Hv); exists (k, v); (split; [done|]);
      by apply (IH (k, v)).
Qed.
End PytreeFacts.

(** ** The training loop under the names of its module *)

Section TrainMore.
Import Np RnnUtils.
Context {A Params OptState Key Grads Loss : Type}.
Variable PRNGKey : Z -> Key.
Variable split2 : Key -> Key * Key.
Variable split3 : Key -> Key * Key * Key.
Variable model_init : Key -> ndarray A -> Params.
Variable value_and_grad :
  loss_fn -> Params -> ndarray A -> ndarray A -> Key -> res (Loss * Grads).
Variable apply_updates : Params -> Grads -> Params.
Variable nan_in_dict : Params -> bool.
Variable isnan : Loss -> bool.
Variable opt : GradientTransformation (Params:=Params) (OptState:=OptState) (Grads:=Grads).
Variable clipped_grads : Grads.
Variable validation_loss : list Loss.



End TrainMore.

(** ** The further theorems at concrete inputs *)

Lemma inputs_trials_valid : Forall AgentQ.valid_trial Inputs.trials.
Proof.
  repeat (apply List.Forall_cons; [unfold AgentQ.valid_trial; cbn; lia|]).
  apply List.Forall_nil.
Qed.

Lemma inputs_choices_valid : Forall (fun c => c = 0 \/ c = 1) [0; 1; 1].
Proof. repeat (apply List.Forall_cons; [lia|]). apply List.Forall_nil. Qed.

Lemma inputs_flips_still_reachable :
  EnvironmentBanditsFlips.reachable 0%Q (4 # 5)%Q (1 # 5)%Q Inputs.flips_still.
Proof.
  eapply (EnvironmentBanditsFlips.reach_init _ _ _ Examples.rng). reflexivity.
Qed.

Lemma AgentQ_new_sess_resets_witness :
  Forall AgentQ.valid_trial Inputs.trials /\
  exists self,
    AgentQ.updates Inputs.trials (AgentQ.__init__ (1 # 10) 3) = (Ok tt, self) /\
    AgentQ.new_sess self = (Ok tt, AgentQ.__init__ (1 # 10) 3).
Proof.
  split; [exact inputs_trials_valid|].
  exact (AgentQ_new_sess_resets (1 # 10)%Q 3%Q Inputs.trials inputs_trials_valid).
Defined.

Lemma AgentQ_repeated_reward_closed_form_witness :
  (1 = 0 \/ 1 = 1) /\
  exists self x y,
    AgentQ.updates (replicate 4 (1, 1)) (AgentQ.__init__ (1 # 10) 3) = (Ok tt, self) /\
    Vec2.getitem (AgentQ.q self) 1 = Ok x /\
    Vec2.getitem (AgentQ.q self) (1 - 1) = Ok y /\
    (x == inject_Z 1 + pow_nat (1 - (1 # 10)) 4 * ((1 # 2) - inject_Z 1))%Q /\
    (y == 1 # 2)%Q.
Proof.
  assert (1 = 0 \/ 1 = 1) as Hc by lia.
  split; [exact Hc|].
  exact (AgentQ_repeated_reward_closed_form (1 # 10)%Q 3%Q 1 1 4 Hc).
Defined.


Lemma Flips_probabilities_are_high_and_low_witness :
  Vec2.in_unit 1 /\ Vec2.in_unit (4 # 5) /\ Vec2.in_unit (1 # 5) /\
  EnvironmentBanditsFlips.reachable 1%Q (4 # 5)%Q (1 # 5)%Q Examples.flips /\
  (0 = 0 \/ 0 = 1) /\
  (EnvironmentBanditsFlips._block Examples.flips = 1 /\
   EnvironmentBanditsFlips.reward_probabilities Examples.flips = ((4 # 5)%Q, (1 # 5)%Q) \/
   EnvironmentBanditsFlips._block Examples.flips = 0 /\
   EnvironmentBanditsFlips.reward_probabilities Examples.flips = ((1 # 5)%Q, (4 # 5)%Q)) /\
  exists reward e',
    EnvironmentBanditsFlips.next_trial 0 (Examples.flips, Examples.rng)
    = (Ok reward, (e', NpRandom.advance (NpRandom.advance Examples.rng))) /\
    (reward = 0 \/ reward = 1) /\
    (EnvironmentBanditsFlips.reward_probabilities e'
     = EnvironmentBanditsFlips.reward_probabilities Examples.flips \/
     EnvironmentBanditsFlips.reward_probabilities e'
     = EnvironmentBanditsFlips.swap
         (EnvironmentBanditsFlips.reward_probabilities Examples.flips)).
Proof.
  assert (Vec2.in_unit 1) as Hp by (split; vm_compute; discriminate).
  assert (Vec2.in_unit (4 # 5)) as Hh by (split; vm_compute; discriminate).
  assert (Vec2.in_unit (1 # 5)) as Hl by (split; vm_compute; discriminate).
  assert (0 = 0 \/ 0 = 1) as Hc by lia.
  split; [exact Hp|]. split; [exact Hh|]. split; [exact Hl|].
  split; [exact example_flips_reachable|]. split; [exact Hc|].
  exact (Flips_probabilities_are_high_and_low 1%Q (4 # 5)%Q (1 # 5)%Q Examples.flips 0
           Examples.rng Hp Hh Hl example_flips_reachable Hc).
Defined.

Lemma Flips_never_flip_at_zero_witness :
  Vec2.in_unit (4 # 5) /\ Vec2.in_unit (1 # 5) /\
  EnvironmentBanditsFlips.reachable 0%Q (4 # 5)%Q (1 # 5)%Q Inputs.flips_still /\
  Forall (fun c => c = 0 \/ c = 1) [0; 1; 1] /\
  exists rewards g',
    EnvironmentBanditsFlips.next_trials [0; 1; 1] (Inputs.flips_still, Examples.rng)
    = (Ok rewards, (Inputs.flips_still, g')) /\
    length rewards = length [0; 1; 1] /\
    Forall (fun r => r = 0 \/ r = 1) rewards.
Proof.
  assert (Vec2.in_unit (4 # 5)) as Hh by (split; vm_compute; discriminate).
  assert (Vec2.in_unit (1 # 5)) as Hl by (split; vm_compute; discriminate).
  split; [exact Hh|]. split; [exact Hl|].
  split; [exact inputs_flips_still_reachable|]. split; [exact inputs_choices_valid|].
  exact (Flips_never_flip_at_zero (4 # 5)%Q (1 # 5)%Q Inputs.flips_still [0; 1; 1]
           Examples.rng Hh Hl inputs_flips_still_reachable inputs_choices_valid).
Defined.

Lemma Drift_step_moves_at_most_noise_witness :
  (0 <= EnvironmentBanditsDrift._sigma Examples.drift)%Q /\
  EnvironmentBanditsDrift.probs_in_unit Examples.drift /\
  (1 = 0 \/ 1 = 1) /\
  exists u p reward e',
    NpRandom.random_sample Examples.rng = (Ok u, NpRandom.advance Examples.rng) /\
    Vec2.getitem (EnvironmentBanditsDrift.reward_probs Examples.drift) 1 = Ok p /\
    EnvironmentBanditsDrift.step 1 (Examples.drift, Examples.rng)
    = (Ok reward,
       (e', NpRandom.advance (NpRandom.advance (NpRandom.advance Examples.rng)))) /\
    ((u < p)%Q -> reward = 1) /\ ((p <= u)%Q -> reward = 0) /\
    EnvironmentBanditsDrift._sigma e' = EnvironmentBanditsDrift._sigma Examples.drift /\
    (Qabs ((EnvironmentBanditsDrift.reward_probs e').1
           - (EnvironmentBanditsDrift.reward_probs Examples.drift).1)
     <= EnvironmentBanditsDrift._sigma Examples.drift
        * Qabs (NpRandom.gauss Examples.rng (S (NpRandom.pos Examples.rng))))%Q /\
    (Qabs ((EnvironmentBanditsDrift.reward_probs e').2
           - (EnvironmentBanditsDrift.reward_probs Examples.drift).2)
     <= EnvironmentBanditsDrift._sigma Examples.drift
        * Qabs (NpRandom.gauss Examples.rng (S (S (NpRandom.pos Examples.rng)))))%Q.
Proof.
  assert (0 <= EnvironmentBanditsDrift._sigma Examples.drift)%Q as Hs
    by (vm_compute; discriminate).
  assert (EnvironmentBanditsDrift.probs_in_unit Examples.drift) as Hp
    by (repeat split; vm_compute; discriminate).
  assert (1 = 0 \/ 1 = 1) as Hc by lia.
  split; [exact Hs|]. split; [exact Hp|]. split; [exact Hc|].
  exact (Drift_step_moves_at_most_noise Examples.drift Examples.rng 1 Hs Hp Hc).
Defined.

Lemma Drift_sigma_zero_is_stationary_witness :
  (EnvironmentBanditsDrift._sigma Inputs.drift_still == 0)%Q /\
  EnvironmentBanditsDrift.probs_in_unit Inputs.drift_still /\
  Forall (fun c => c = 0 \/ c = 1) [0; 1; 1] /\
  exists rewards e' g',
    EnvironmentBanditsDrift.steps [0; 1; 1] (Inputs.drift_still, Examples.rng)
    = (Ok rewards, (e', g')) /\
    length rewards = length [0; 1; 1] /\
    Forall (fun r => r = 0 \/ r = 1) rewards /\
    NpRandom.pos g' = (NpRandom.pos Examples.rng + 3 * length [0; 1; 1])%nat /\
    ((EnvironmentBanditsDrift.reward_probs e').1
     == (EnvironmentBanditsDrift.reward_probs Inputs.drift_still).1)%Q /\
    ((EnvironmentBanditsDrift.reward_probs e').2
     == (EnvironmentBanditsDrift.reward_probs Inputs.drift_still).2)%Q.
Proof.
  assert (EnvironmentBanditsDrift._sigma Inputs.drift_still == 0)%Q as Hs by reflexivity.
  assert (EnvironmentBanditsDrift.probs_in_unit Inputs.drift_still) as Hp
    by (repeat split; vm_compute; discriminate).
  split; [exact Hs|]. split; [exact Hp|]. split; [exact inputs_choices_valid|].
  exact (Drift_sigma_zero_is_stationary Inputs.drift_still [0; 1; 1] Examples.rng
           Hs Hp inputs_choices_valid).
Defined.

Lemma run_experiment_AgentQ_replay_witness :
  NpRandom.FloatExpOk (H := Examples.float_exp) /\
  AgentQ.in_range (AgentQ.__init__ (1 # 5) 3) /\
  (0 <= EnvironmentBanditsDrift._sigma Examples.drift)%Q /\
  0 <= 100 /\
  exists session a' e' g' trials,
    run_experiment (H := @AgentQ.agent Examples.exp Examples.float_exp) 100
      (AgentQ.__init__ (1 # 5) 3, Drift Examples.drift, Examples.rng)
    = (Ok session, (a', Drift e', g')) /\
    length trials = Z.to_nat 100 /\
    Forall AgentQ.valid_trial trials /\
    choices session = map trial_choice trials /\
    rewards session = map trial_reward trials /\
    AgentQ.updates trials (AgentQ.__init__ (1 # 5) 3) = (Ok tt, a') /\
    AgentQ.in_range a' /\
    NpRandom.pos g' = (NpRandom.pos Examples.rng + 4 * Z.to_nat 100)%nat.
Proof.
  assert (AgentQ.in_range (AgentQ.__init__ (1 # 5) 3)) as Ha
    by (repeat split; vm_compute; discriminate).
  assert (0 <= EnvironmentBanditsDrift._sigma Examples.drift)%Q as Hs
    by (vm_compute; discriminate).
  assert (0 <= 100) as Hn by lia.
  split; [exact Examples_float_exp_ok|].
  split; [exact Ha|]. split; [exact Hs|]. split; [exact Hn|].
  exact (@run_experiment_AgentQ_replay Examples.exp Examples.float_exp
           Examples_float_exp_ok (AgentQ.__init__ (1 # 5) 3)
           Examples.drift Examples.rng 100 Ha Hs Hn).
Defined.

Lemma AgentQ_choice_probs_distribution_witness :
  NpRandom.FloatExpOk (H := Examples.float_exp) /\
  let self := AgentQ.__init__ (1 # 5) 3 in
  let probs := @AgentQ.get_choice_probs Examples.exp Examples.float_exp self in
  ((- NpRandom.exp_safe NpRandom.float64 <= AgentQ._beta self * (AgentQ.q self).1
    <= NpRandom.exp_safe NpRandom.float64)%Q ->
   (- NpRandom.exp_safe NpRandom.float64 <= AgentQ._beta self * (AgentQ.q self).2
    <= NpRandom.exp_safe NpRandom.float64)%Q ->
   exists p,
     probs = Some p /\
     Vec2.in_unit p.1 /\ Vec2.in_unit p.2 /\ (p.1 + p.2 == 1)%Q /\
     ((AgentQ.q self).1 = (AgentQ.q self).2 -> (p.1 == 1 # 2)%Q /\ (p.2 == 1 # 2)%Q)) /\
  ((NpRandom.exp_over NpRandom.float64 < AgentQ._beta self * (AgentQ.q self).1)%Q \/
   (NpRandom.exp_over NpRandom.float64 < AgentQ._beta self * (AgentQ.q self).2)%Q ->
   probs = None).
Proof.
  split; [exact Examples_float_exp_ok|].
  exact (@AgentQ_choice_probs_distribution Examples.exp Examples.float_exp
           Examples_float_exp_ok (AgentQ.__init__ (1 # 5) 3)).
Defined.

Lemma AgentQ_get_choice_threshold_witness :
  NpRandom.FloatExpOk (H := Examples.float_exp) /\
  let self := AgentQ.__init__ (1 # 5) 3 in
  ((- NpRandom.exp_safe NpRandom.float64 <= AgentQ._beta self * (AgentQ.q self).1
    <= NpRandom.exp_safe NpRandom.float64)%Q ->
   (- NpRandom.exp_safe NpRandom.float64 <= AgentQ._beta self * (AgentQ.q self).2
    <= NpRandom.exp_safe NpRandom.float64)%Q ->
   exists u p c,
     NpRandom.random_sample Examples.rng = (Ok u, NpRandom.advance Examples.rng) /\
     @AgentQ.get_choice_probs Examples.exp Examples.float_exp self = Some p /\
     @AgentQ.get_choice Examples.exp Examples.float_exp self Examples.rng
     = (Ok c, NpRandom.advance Examples.rng) /\
     ((u < p.1)%Q -> c = 0) /\ ((p.1 <= u)%Q -> c = 1)) /\
  ((NpRandom.exp_over NpRandom.float64 < AgentQ._beta self * (AgentQ.q self).1)%Q \/
   (NpRandom.exp_over NpRandom.float64 < AgentQ._beta self * (AgentQ.q self).2)%Q ->
   @AgentQ.get_choice Examples.exp Examples.float_exp self Examples.rng
   = (Raise ValueError, Examples.rng)).
Proof.
  split; [exact Examples_float_exp_ok|].
  exact (@AgentQ_get_choice_threshold Examples.exp Examples.float_exp
           Examples_float_exp_ok (AgentQ.__init__ (1 # 5) 3) Examples.rng).
Defined.

Lemma AgentNetwork_get_choice_needs_two_scores_witness :
  NpRandom.FloatExpOk (H := Examples.float_exp) /\
  let self := Inputs.network2 in
  let scores :=
    (AgentNetwork._model_fun self (AgentNetwork._xs self) (AgentNetwork._state self)).1 in
  (length scores = 2%nat ->
   Forall (fun x => - NpRandom.exp_safe NpRandom.float32 <= x
                    <= NpRandom.exp_safe NpRandom.float32)%Q scores ->
   exists c,
     @AgentNetwork.get_choice Z NpRandom.float32 Examples.exp Examples.float_exp
       self Examples.rng
     = (Ok c, NpRandom.advance Examples.rng) /\ (c = 0 \/ c = 1)) /\
  (length scores <> 2%nat ->
   @AgentNetwork.get_choice Z NpRandom.float32 Examples.exp Examples.float_exp
     self Examples.rng
   = (Raise ValueError, Examples.rng)) /\
  (Exists (fun x => NpRandom.exp_over NpRandom.float32 < x)%Q scores ->
   @AgentNetwork.get_choice Z NpRandom.float32 Examples.exp Examples.float_exp
     self Examples.rng
   = (Raise ValueError, Examples.rng)).
Proof.
  split; [exact Examples_float_exp_ok|].
  exact (@AgentNetwork_get_choice_needs_two_scores Examples.exp Examples.float_exp
           Examples_float_exp_ok Z NpRandom.float32 Inputs.network2 Examples.rng).
Defined.


Lemma next_cyclic_positive_witness :
  DatasetRNN.__init__ (Examples.xs 10) (Examples.ys 10) (Some 5) = Ok Inputs.dataset /\
  0 < DatasetRNN._batch_size Inputs.dataset /\
  (0 < Np.shape1 (Examples.xs 10))%nat /\
  let B := Z.to_nat (DatasetRNN._batch_size Inputs.dataset) in
  let nb := (Np.shape1 (Examples.xs 10) / B)%nat in
  DatasetRNN.n_batches Inputs.dataset = Z.of_nat nb /\
  exists batches ds',
    DatasetRNN.next_n 3 Inputs.dataset = (Ok batches, ds') /\
    length batches = 3%nat /\
    (forall k, (k < 3)%nat -> exists x y,
        batches !! k = Some (x, y) /\
        DatasetRNN.is_episodes (Examples.xs 10) (k mod nb * B) B x /\
        DatasetRNN.is_episodes (Examples.ys 10) (k mod nb * B) B y) /\
    DatasetRNN._idx ds' = Z.of_nat (3 mod nb * B) /\
    (forall k, 3%nat = S k ->
       (DatasetRNN._idx ds' = 0 <-> (k mod nb * B + B)%nat = Np.shape1 (Examples.xs 10))).
Proof.
  assert (DatasetRNN.__init__ (Examples.xs 10) (Examples.ys 10) (Some 5)
          = Ok Inputs.dataset) as Hinit by reflexivity.
  assert (0 < DatasetRNN._batch_size Inputs.dataset) as HB by (cbn; lia).
  assert (0 < Np.shape1 (Examples.xs 10))%nat as HE by (cbn; lia).
  split; [exact Hinit|]. split; [exact HB|]. split; [exact HE|].
  exact (next_cyclic_positive (Examples.xs 10) (Examples.ys 10) (Some 5)
           Inputs.dataset 3 Hinit HB HE).
Defined.

Lemma init_validates_nonzero_witness :
  let B := DatasetRNN.batch_size_of (Examples.xs 10) (Some 3) in
  B <> 0 /\
  (DatasetRNN.__init__ (Examples.xs 10) (Examples.ys 10) (Some 3) = Raise ValueError <->
   Np.shape0 (Examples.xs 10) <> Np.shape0 (Examples.ys 10) \/
   Np.shape1 (Examples.xs 10) <> Np.shape1 (Examples.ys 10) \/
   ~ (B | Z.of_nat (Np.shape1 (Examples.xs 10)))) /\
  (is_Ok (DatasetRNN.__init__ (Examples.xs 10) (Examples.ys 10) (Some 3)) <->
   Np.shape0 (Examples.xs 10) = Np.shape0 (Examples.ys 10) /\
   Np.shape1 (Examples.xs 10) = Np.shape1 (Examples.ys 10) /\
   (B | Z.of_nat (Np.shape1 (Examples.xs 10)))).
Proof.
  assert (DatasetRNN.batch_size_of (Examples.xs 10) (Some 3) <> 0) as HB by (cbn; lia).
  split; [exact HB|].
  exact (init_validates_nonzero (Examples.xs 10) (Examples.ys 10) (Some 3) HB).
Defined.

Lemma default_batch_size_serves_all_witness :
  Np.shape0 (Examples.xs 10) = Np.shape0 (Examples.ys 10) /\
  Np.shape1 (Examples.xs 10) = Np.shape1 (Examples.ys 10) /\
  (0 < Np.shape1 (Examples.xs 10))%nat /\
  exists ds x y,
    DatasetRNN.__init__ (Examples.xs 10) (Examples.ys 10) None = Ok ds /\
    DatasetRNN.n_batches ds = 1 /\
    DatasetRNN.__next__ ds = (Ok (x, y), ds) /\
    DatasetRNN.is_episodes (Examples.xs 10) 0 (Np.shape1 (Examples.xs 10)) x /\
    DatasetRNN.is_episodes (Examples.ys 10) 0 (Np.shape1 (Examples.xs 10)) y.
Proof.
  assert (Np.shape0 (Examples.xs 10) = Np.shape0 (Examples.ys 10)) as H0 by reflexivity.
  assert (Np.shape1 (Examples.xs 10) = Np.shape1 (Examples.ys 10)) as H1 by reflexivity.
  assert (0 < Np.shape1 (Examples.xs 10))%nat as HE by (cbn; lia).
  split; [exact H0|]. split; [exact H1|]. split; [exact HE|].
  exact (default_batch_size_serves_all (Examples.xs 10) (Examples.ys 10) H0 H1 HE).
Defined.

Lemma epoch_is_a_round_trip_witness :
  DatasetRNN.__init__ (Examples.xs 10) (Examples.ys 10) (Some 5) = Ok Inputs.dataset /\
  0 < DatasetRNN._batch_size Inputs.dataset /\
  (0 < Np.shape1 (Examples.xs 10))%nat /\
  let B := Z.to_nat (DatasetRNN._batch_size Inputs.dataset) in
  let nb := Z.to_nat (DatasetRNN.n_batches Inputs.dataset) in
  (nb * B)%nat = Np.shape1 (Examples.xs 10) /\
  exists batches,
    DatasetRNN.next_n nb Inputs.dataset = (Ok batches, Inputs.dataset) /\
    length batches = nb /\
    forall k, (k < nb)%nat -> exists x y,
      batches !! k = Some (x, y) /\
      DatasetRNN.is_episodes (Examples.xs 10) (k * B) B x /\
      DatasetRNN.is_episodes (Examples.ys 10) (k * B) B y.
Proof.
  assert (DatasetRNN.__init__ (Examples.xs 10) (Examples.ys 10) (Some 5)
          = Ok Inputs.dataset) as Hinit by reflexivity.
  assert (0 < DatasetRNN._batch_size Inputs.dataset) as HB by (cbn; lia).
  assert (0 < Np.shape1 (Examples.xs 10))%nat as HE by (cbn; lia).
  split; [exact Hinit|]. split; [exact HB|]. split; [exact HE|].
  exact (epoch_is_a_round_trip (Examples.xs 10) (Examples.ys 10) (Some 5)
           Inputs.dataset Hinit HB HE).
Defined.

Lemma train_model_never_returns_witness :
  ("validation_loss" ∉ Inputs.globals_with_jax) /\
  never_returns (Examples.train Inputs.globals_with_jax 3).
Proof.
  assert ("validation_loss" ∉ Inputs.globals_with_jax) as Hg.
  { apply (bool_decide_unpack ("validation_loss" ∉ Inputs.globals_with_jax)).
    by vm_compute. }
  split; [exact Hg|].
  exact (train_model_never_returns (A:=Z) (Key:=Z) (Loss:=Z)
           (fun seed => seed) (fun k => (k + 1, k + 2)) (fun k => (k + 1, k + 2, k + 3))
           (fun _ _ => 0) (fun _ p _ _ _ => Ok (p, 1)) (fun p gr => p - gr)
           (fun _ => false) (fun _ => false) Inputs.globals_with_jax Examples.opt 0 []
           Examples.opt (Some 7) (Some 11) (Some 13) 3 "categorical" true Hg).
Defined.
